(** * Drone bird-deterrent controller (esp32_main_controller.cpp)

    A shallow embedding of the decision logic of the ESP32 main controller:
    the threat scorer [assessThreatLevel], the operating-state update
    [updateSystemState], the deterrent driver [controlDeterrents] with its
    strobe and tone shaping, the detection poll [checkBirdDetection] and the
    control loop [loop] that sequences them.

    Conventions.
    - [int] and enum values are integers of [Z]; [unsigned long] values are
      kept reduced modulo 2^32 and their subtraction wraps ([sub32]).
    - The [float] fields of a detection are IEEE-754 values ([spec_float]);
      comparisons are the IEEE comparisons of [SpecFloat], so a NaN compares
      false with everything.
    - The [float] and [double] arithmetic that shapes the strobe and the
      tone and that monitors the battery is floating-point arithmetic: each
      operation is the real operation followed by a rounding to [double]
      ([rnd64]) or to [float] ([rnd32]), and [sin] is the library's
      ([libm_sin], and [libm_sinf] where the argument is a [float]).  The
      roundings and the library sines are a parameter
      ([FloatModel]) of which only what IEEE-754 arithmetic guarantees is
      assumed; the conversion to [int] is C's truncation toward zero
      ([double_to_int]).
    - Reads of the millisecond counter, of the emergency pin, of the serial
      link and of the analog converter are inputs of one loop iteration
      ([TickInput]); writes to PWM channels, pins and the radio are
      collected in order ([HwWrite]), lines printed on the serial console
      apart ([serial_log]). *)

From Stdlib Require Import ZArith List Bool Lia.
From Stdlib Require Import SpecFloat.
From Stdlib Require Import Reals Lra.
From Stdlib Require Import String.
Import ListNotations.

Local Open Scope Z_scope.

(** ** Enumerations and records of the source *)

Inductive SystemState : Set :=
| STATE_STANDBY
| STATE_ALERT
| STATE_ACTIVE
| STATE_EMERGENCY.

Inductive ThreatLevel : Set :=
| THREAT_NONE
| THREAT_LOW
| THREAT_MEDIUM
| THREAT_HIGH.

(** Ordinal of a threat level, as the enum declares it. *)
Definition threat_ord (t : ThreatLevel) : Z :=
  match t with
  | THREAT_NONE => 0
  | THREAT_LOW => 1
  | THREAT_MEDIUM => 2
  | THREAT_HIGH => 3
  end.

Definition state_ord (s : SystemState) : Z :=
  match s with
  | STATE_STANDBY => 0
  | STATE_ALERT => 1
  | STATE_ACTIVE => 2
  | STATE_EMERGENCY => 3
  end.

(** [struct BirdDetection]. *)
Record BirdDetection : Set := mkBird {
  detected : bool;
  confidence : Z;
  distance : spec_float;
  bearing : spec_float;
  species : Z;
  timestamp : Z
}.

(** ** Machine integers *)

Definition two32 : Z := 2 ^ 32.

(** Value of an [unsigned long] expression. *)
Definition wrap32 (x : Z) : Z := x mod two32.

(** [a - b] on [unsigned long]. *)
Definition sub32 (a b : Z) : Z := wrap32 (a - b).

Definition int_min : Z := - 2 ^ 31.
Definition int_max : Z := 2 ^ 31 - 1.
Definition in_int (x : Z) : Prop := int_min <= x <= int_max.

(** ** Float constants

    An [int] literal compared with a [float] is converted to binary32
    (24-bit significand, maximal exponent 128). *)

Definition float_of_int (n : Z) : spec_float :=
  binary_normalize 24 128 n 0 false.

(** A [float] variable holds a value [x] with [valid_binary 24 128 x = true];
    the comparisons of [SpecFloat] read such values as IEEE-754 does.  The
    properties proved below hold without that assumption. *)

Definition f50 : spec_float := Eval cbv in float_of_int 50.
Definition f100 : spec_float := Eval cbv in float_of_int 100.
Definition f200 : spec_float := Eval cbv in float_of_int 200.

(** ** Threat scorer: [assessThreatLevel] *)

Module Scorer.

(** Distance factor (source lines 323-325). *)
Definition distanceFactor (d : spec_float) : Z :=
  if SFltb d f50 then 30
  else if SFltb d f100 then 20
  else if SFltb d f200 then 10
  else 0.

(** Confidence factor (line 328): C's [/] on [int] truncates toward zero. *)
Definition confidenceFactor (c : Z) : Z := Z.quot c 10.

(** Species factor (lines 331-333). *)
Definition speciesFactor (s : Z) : Z :=
  if s =? 1 then 20
  else if s =? 2 then 15
  else if s =? 3 then 10
  else 0.

(** The local [threatScore] once all three factors are added, for a
    detection whose [detected] flag is set. *)
Definition threatScore (b : BirdDetection) : Z :=
  let threatScore := 0 in
  let threatScore := threatScore + distanceFactor (distance b) in
  let threatScore := threatScore + confidenceFactor (confidence b) in
  let threatScore := threatScore + speciesFactor (species b) in
  threatScore.

(** Lines 336-339. *)
Definition levelOfScore (threatScore : Z) : ThreatLevel :=
  if threatScore >=? 50 then THREAT_HIGH
  else if threatScore >=? 30 then THREAT_MEDIUM
  else if threatScore >=? 15 then THREAT_LOW
  else THREAT_NONE.

(** The value [assessThreatLevel] stores in [currentThreat]. *)
Definition assess (b : BirdDetection) : ThreatLevel :=
  if negb (detected b) then THREAT_NONE
  else levelOfScore (threatScore b).

End Scorer.

(** ** Globals, inputs and outputs of the firmware *)

(** The process-wide variables of the source.  Of the [SensorData] record
    the time stamp and the battery voltage are kept; its other fields, and
    the [PowerData] record, hold float readings that only the telemetry
    copies.  [lastHealthCheck] is the static local of [performHealthCheck]. *)
Record Globals : Set := mkGlobals {
  currentState : SystemState;
  currentThreat : ThreatLevel;
  lastTelemetryTime : Z;
  lastSensorUpdate : Z;
  deterrentActivationTime : Z;
  emergencyStop : bool;
  birdData : BirdDetection;
  sensors_timestamp : Z;
  lastHealthCheck : Z;
  sensors_batteryVoltage : R
}.

Definition set_currentState (s : SystemState) (g : Globals) : Globals :=
  mkGlobals s (currentThreat g) (lastTelemetryTime g) (lastSensorUpdate g)
    (deterrentActivationTime g) (emergencyStop g) (birdData g)
    (sensors_timestamp g) (lastHealthCheck g) (sensors_batteryVoltage g).

Definition set_currentThreat (t : ThreatLevel) (g : Globals) : Globals :=
  mkGlobals (currentState g) t (lastTelemetryTime g) (lastSensorUpdate g)
    (deterrentActivationTime g) (emergencyStop g) (birdData g)
    (sensors_timestamp g) (lastHealthCheck g) (sensors_batteryVoltage g).

Definition set_lastTelemetryTime (t : Z) (g : Globals) : Globals :=
  mkGlobals (currentState g) (currentThreat g) t (lastSensorUpdate g)
    (deterrentActivationTime g) (emergencyStop g) (birdData g)
    (sensors_timestamp g) (lastHealthCheck g) (sensors_batteryVoltage g).

Definition set_lastSensorUpdate (t : Z) (g : Globals) : Globals :=
  mkGlobals (currentState g) (currentThreat g) (lastTelemetryTime g) t
    (deterrentActivationTime g) (emergencyStop g) (birdData g)
    (sensors_timestamp g) (lastHealthCheck g) (sensors_batteryVoltage g).

Definition set_deterrentActivationTime (t : Z) (g : Globals) : Globals :=
  mkGlobals (currentState g) (currentThreat g) (lastTelemetryTime g)
    (lastSensorUpdate g) t (emergencyStop g) (birdData g)
    (sensors_timestamp g) (lastHealthCheck g) (sensors_batteryVoltage g).

Definition set_emergencyStop (b : bool) (g : Globals) : Globals :=
  mkGlobals (currentState g) (currentThreat g) (lastTelemetryTime g)
    (lastSensorUpdate g) (deterrentActivationTime g) b (birdData g)
    (sensors_timestamp g) (lastHealthCheck g) (sensors_batteryVoltage g).

Definition set_birdData (b : BirdDetection) (g : Globals) : Globals :=
  mkGlobals (currentState g) (currentThreat g) (lastTelemetryTime g)
    (lastSensorUpdate g) (deterrentActivationTime g) (emergencyStop g) b
    (sensors_timestamp g) (lastHealthCheck g) (sensors_batteryVoltage g).

Definition set_sensors_timestamp (t : Z) (g : Globals) : Globals :=
  mkGlobals (currentState g) (currentThreat g) (lastTelemetryTime g)
    (lastSensorUpdate g) (deterrentActivationTime g) (emergencyStop g)
    (birdData g) t (lastHealthCheck g) (sensors_batteryVoltage g).

Definition set_lastHealthCheck (t : Z) (g : Globals) : Globals :=
  mkGlobals (currentState g) (currentThreat g) (lastTelemetryTime g)
    (lastSensorUpdate g) (deterrentActivationTime g) (emergencyStop g)
    (birdData g) (sensors_timestamp g) t (sensors_batteryVoltage g).

Definition set_sensors_batteryVoltage (v : R) (g : Globals) : Globals :=
  mkGlobals (currentState g) (currentThreat g) (lastTelemetryTime g)
    (lastSensorUpdate g) (deterrentActivationTime g) (emergencyStop g)
    (birdData g) (sensors_timestamp g) (lastHealthCheck g) v.

(** The values of the globals after their initialisers and [setup]. *)
Definition initial_globals : Globals :=
  mkGlobals STATE_STANDBY THREAT_NONE 0 0 0 false
    (mkBird false 0 (S754_zero false) (S754_zero false) 0 0) 0 0 0%R.

(** Pin numbers and PWM channels used by the modelled code. *)
Definition AUDIO_ENABLE : Z := 4.
Definition EMERGENCY_STOP : Z := 21.

Inductive PinLevel : Set := LOW | HIGH.

(** Outcome of [deserializeJson]. *)
Inductive DeserializationError : Set :=
| JsonOk
| EmptyInput
| IncompleteInput
| InvalidInput
| NoMemory
| TooDeep.

(** What the five member reads of the JSON document yield. *)
Record JsonDoc : Set := mkDoc {
  doc_detected : bool;
  doc_confidence : Z;
  doc_distance : spec_float;
  doc_bearing : spec_float;
  doc_species : Z
}.

(** A line received from the detection computer: the error code of its
    decoding and whatever the document holds afterwards. *)
Record RxLine : Set := mkRx {
  rx_error : DeserializationError;
  rx_doc : JsonDoc
}.

(** What one loop iteration reads from its surroundings.  [clock k] is the
    value of the millisecond counter at the [k]-th call of [millis()] of the
    iteration; [rpi_rx = None] when [rpiSerial.available()] is zero;
    [adc_A0] is what [analogRead(A0)] returns. *)
Record TickInput : Type := mkInput {
  clock : nat -> Z;
  emergency_pin : PinLevel;
  rpi_rx : option RxLine;
  adc_A0 : Z
}.

(** The integer and enum fields of a telemetry packet. *)
Record Telemetry : Set := mkTelemetry {
  tm_timestamp : Z;
  tm_state : Z;
  tm_threat : Z;
  tm_bird : option (Z * spec_float)
}.

Inductive HwWrite : Set :=
| LedcWrite (channel duty : Z)
| DigitalWrite (pin : Z) (level : bool)
| LedcWriteTone (channel freq : Z)
| LoRaPacket (t : Telemetry)
| Delay (ms : Z).

(** ** A state monad for one loop iteration *)

(** The globals, the number of [millis()] calls made so far, the writes
    issued so far and the lines printed so far on the serial console. *)
Record Machine : Set := mkMachine {
  globals : Globals;
  clock_reads : nat;
  writes : list HwWrite;
  serial_log : list string
}.

Definition M (A : Type) : Type := TickInput -> Machine -> A * Machine.

Definition ret {A} (a : A) : M A := fun _ m => (a, m).

Definition bind {A B} (c : M A) (k : A -> M B) : M B :=
  fun inp m => let (a, m') := c inp m in k a inp m'.

Declare Scope fw_scope.
Delimit Scope fw_scope with fw.
Notation "x <- c1 ;; c2" := (bind c1 (fun x => c2))
  (at level 61, c1 at next level, right associativity) : fw_scope.
Notation "c1 ;; c2" := (bind c1 (fun _ => c2))
  (at level 61, right associativity) : fw_scope.
Local Open Scope fw_scope.

Definition get : M Globals := fun _ m => (globals m, m).

Definition modify (f : Globals -> Globals) : M unit :=
  fun _ m =>
    (tt, mkMachine (f (globals m)) (clock_reads m) (writes m) (serial_log m)).

Definition emit (w : HwWrite) : M unit :=
  fun _ m =>
    (tt, mkMachine (globals m) (clock_reads m) (writes m ++ [w]) (serial_log m)).

(** [millis()]: the next reading of the counter, as an [unsigned long]. *)
Definition millis : M Z :=
  fun inp m =>
    (wrap32 (clock inp (clock_reads m)),
     mkMachine (globals m) (S (clock_reads m)) (writes m) (serial_log m)).

Definition digitalRead_EMERGENCY_STOP : M PinLevel :=
  fun inp m => (emergency_pin inp, m).

Definition rpiSerial_read : M (option RxLine) :=
  fun inp m => (rpi_rx inp, m).

Definition analogRead_A0 : M Z :=
  fun inp m => (adc_A0 inp, m).

(** [if (cond) Serial.println(msg);] *)
Definition Serial_println_if (cond : bool) (msg : string) : M unit :=
  fun _ m =>
    (tt, mkMachine (globals m) (clock_reads m) (writes m)
           (serial_log m ++ if cond then [msg] else [])).

Definition exec {A} (c : M A) (inp : TickInput) (m : Machine) : Machine :=
  snd (c inp m).

(** A machine at the start of an iteration. *)
Definition start (g : Globals) : Machine := mkMachine g 0 [] [].

(** ** Floating-point arithmetic

    The value of a [double] or [float] expression is a real number: the
    result of each operation is the exact result rounded to the format.
    The two roundings and the sine of the C library are not fixed here;
    they are required to behave as IEEE-754 rounding and a library sine do:
    a rounding is monotone and leaves unchanged every number [n / 2^k] with
    [|n| <= 2^24] and [k <= 64] (the integers up to 2^24 among them), and
    the library sine lies between -1 and 1 and is 0 at 0.  [libm_sin] is
    the sine of a [double]; [libm_sinf] is what [sin] computes when its
    argument is a [float], which is the single-precision sine where the
    C++ library overloads [sin] and [libm_sin] where it does not.  No value
    the program computes comes near the largest number of its format, so
    overflow is not modelled. *)

Class FloatModel : Type := mkFloatModel {
  rnd64 : R -> R;
  rnd32 : R -> R;
  libm_sin : R -> R;
  libm_sinf : R -> R;
  rnd64_mono : forall x y : R, (x <= y)%R -> (rnd64 x <= rnd64 y)%R;
  rnd64_exact : forall (n : Z) (k : nat),
      Z.abs n <= 2 ^ 24 -> (k <= 64)%nat ->
      rnd64 (IZR n / 2 ^ k)%R = (IZR n / 2 ^ k)%R;
  rnd32_mono : forall x y : R, (x <= y)%R -> (rnd32 x <= rnd32 y)%R;
  rnd32_exact : forall (n : Z) (k : nat),
      Z.abs n <= 2 ^ 24 -> (k <= 64)%nat ->
      rnd32 (IZR n / 2 ^ k)%R = (IZR n / 2 ^ k)%R;
  libm_sin_range : forall x : R, (-1 <= libm_sin x <= 1)%R;
  libm_sin_zero : libm_sin 0 = 0%R;
  libm_sinf_range : forall x : R, (-1 <= libm_sinf x <= 1)%R;
  libm_sinf_zero : libm_sinf 0 = 0%R
}.

(** Accuracy of a float model: a rounding is within the unit roundoff of
    the format (2^-53 for [double], 2^-24 for [float]) relative to its
    argument, up to an underflow term far below 10^-30, and each library
    sine is within 10^-6 of the sine. *)
Definition accurate (fm : FloatModel) : Prop :=
  (forall x : R,
      Rabs (rnd64 x - x) <= Rabs x / 9007199254740992
                            + / 1000000000000000000000000000000)%R /\
  (forall x : R,
      Rabs (rnd32 x - x) <= Rabs x / 16777216
                            + / 1000000000000000000000000000000)%R /\
  (forall x : R, Rabs (libm_sin x - sin x) <= / 1000000)%R /\
  (forall x : R, Rabs (libm_sinf x - sin x) <= / 1000000)%R.

(** Arithmetic without rounding error is a float model, and an accurate
    one.  It serves as the model at which the theorems are instantiated. *)
Definition exact_arith : FloatModel.
Proof.
  refine (mkFloatModel (fun x => x) (fun x => x) sin sin _ _ _ _ _ _ _ _).
  - intros x y H. exact H.
  - reflexivity.
  - intros x y H. exact H.
  - reflexivity.
  - exact SIN_bound.
  - exact sin_0.
  - exact SIN_bound.
  - exact sin_0.
Defined.

Section Firmware.
Context {fm : FloatModel}.

(** ** Signal shaping: [setLEDStrobes] and [setAudioDeterrent] *)

(** Conversion of a [double] to [int]: the fractional part is discarded. *)
Definition double_to_int (x : R) : Z :=
  if Rle_dec 0 x then Int_part x else - Int_part (- x).

(** The [double] constant [PI] of the Arduino core. *)
Definition PI_d : R := rnd64 PI.

(** [timeRad] of line 399: the product and the quotient are [double]
    operations, the result is stored in a [float]. *)
Definition timeRad (time : Z) : R :=
  rnd32 (rnd64 (rnd64 (rnd64 (IZR (time mod 1000) * 2) * PI_d) / 1000)).

(** [(sine + 1.0) * intensity / 2] in [double], for the value [sine] of a
    call of [sin]. *)
Definition strobeLevel (sine : R) (intensity : Z) : R :=
  rnd64 (rnd64 (rnd64 (sine + 1) * IZR intensity) / 2).

(** The right-hand side of lines 402-404 for a phase offset [off]: the sum
    of the angle and the offset is a [double], and so is its sine. *)
Definition strobePhase (off : R) (intensity time : Z) : Z :=
  double_to_int
    (strobeLevel (libm_sin (rnd64 (timeRad time + off))) intensity).

(** Line 401: the sine of the [float] itself. *)
Definition phase1 (intensity time : Z) : Z :=
  double_to_int (strobeLevel (libm_sinf (timeRad time)) intensity).
Definition phase2 (intensity time : Z) : Z :=
  strobePhase (rnd64 (PI_d / 2)) intensity time.
Definition phase3 (intensity time : Z) : Z :=
  strobePhase PI_d intensity time.
Definition phase4 (intensity time : Z) : Z :=
  strobePhase (rnd64 (rnd64 (3 * PI_d) / 2)) intensity time.

Definition setLEDStrobes (intensity : Z) : M unit :=
  time <- millis ;;
  emit (LedcWrite 0 (phase1 intensity time)) ;;
  emit (LedcWrite 1 (phase2 intensity time)) ;;
  emit (LedcWrite 2 (phase3 intensity time)) ;;
  emit (LedcWrite 3 (phase4 intensity time)).

(** [frequency] of line 417; [0.01] is a [double] literal. *)
Definition toneFrequency (time : Z) : Z :=
  double_to_int
    (rnd64 (2000 + rnd64 (libm_sin (rnd64 (IZR time * rnd64 0.01)) * 500))).

Definition setAudioDeterrent (enable : bool) : M unit :=
  emit (DigitalWrite AUDIO_ENABLE enable) ;;
  if enable then
    time <- millis ;;
    emit (LedcWriteTone 4 (toneFrequency time))
  else
    emit (LedcWriteTone 4 0).

(** ** Decision logic *)

Definition assessThreatLevel : M unit :=
  g <- get ;;
  if negb (detected (birdData g)) then
    modify (set_currentThreat THREAT_NONE)
  else
    modify (set_currentThreat (Scorer.levelOfScore (Scorer.threatScore (birdData g)))).

Definition checkBirdDetection : M unit :=
  rx <- rpiSerial_read ;;
  match rx with
  | None => ret tt
  | Some line =>
      match rx_error line with
      | JsonOk =>
          now <- millis ;;
          modify (set_birdData
                    (mkBird (doc_detected (rx_doc line))
                            (doc_confidence (rx_doc line))
                            (doc_distance (rx_doc line))
                            (doc_bearing (rx_doc line))
                            (doc_species (rx_doc line))
                            now)) ;;
          assessThreatLevel
      | _ => ret tt
      end
  end.

Definition updateSystemState : M unit :=
  g <- get ;;
  if emergencyStop g then
    modify (set_currentState STATE_EMERGENCY)
  else
    match currentThreat g with
    | THREAT_NONE => modify (set_currentState STATE_STANDBY)
    | THREAT_LOW => modify (set_currentState STATE_ALERT)
    | THREAT_MEDIUM | THREAT_HIGH =>
        modify (set_currentState STATE_ACTIVE) ;;
        now <- millis ;;
        modify (set_deterrentActivationTime now)
    end.

Definition controlDeterrents : M unit :=
  g <- get ;;
  match currentState g with
  | STATE_STANDBY =>
      setLEDStrobes 0 ;;
      setAudioDeterrent false
  | STATE_ALERT =>
      setLEDStrobes 50 ;;
      setAudioDeterrent false
  | STATE_ACTIVE =>
      setLEDStrobes 255 ;;
      setAudioDeterrent true ;;
      now <- millis ;;
      g' <- get ;;
      if sub32 now (deterrentActivationTime g') >? 60000 then
        modify (set_currentState STATE_ALERT)
      else ret tt
  | STATE_EMERGENCY =>
      setLEDStrobes 0 ;;
      setAudioDeterrent false
  end.

(** ** The remaining steps of the loop *)

(** [sensors.batteryVoltage] for a reading [adcValue] (line 289): [double]
    operations on the [double] literal [3.3], stored in a [float]. *)
Definition batteryVoltageOf (adcValue : Z) : R :=
  rnd32 (rnd64 (rnd64 (rnd64 (IZR adcValue * rnd64 3.3) / 4095) * 4)).

(** The inertial, barometric and position readings are not kept. *)
Definition updateSensorData : M unit :=
  now <- millis ;;
  modify (set_sensors_timestamp now) ;;
  adcValue <- analogRead_A0 ;;
  modify (set_sensors_batteryVoltage (batteryVoltageOf adcValue)).

(** [powerStatus.batteryLevel] (lines 430-432): [float] operations on the
    [float] variables [minVoltage = 9.0] and [maxVoltage = 12.6]. *)
Definition batteryLevelOf (voltage : R) : R :=
  let minVoltage := 9%R in
  let maxVoltage := rnd32 (rnd64 12.6) in
  rnd32 (rnd32 (rnd32 (voltage - minVoltage)
                / rnd32 (maxVoltage - minVoltage)) * 100).

(** The test of line 435. *)
Definition batteryIsLow (voltage : R) : bool :=
  if Rlt_dec (batteryLevelOf voltage) 30 then true else false.

(** The fields of [powerStatus] are written and only the telemetry copies
    them; what shows is the warning. *)
Definition monitorPowerSystems : M unit :=
  g <- get ;;
  Serial_println_if (batteryIsLow (sensors_batteryVoltage g))
    "WARNING: Low battery level".

Definition sendTelemetryData : M unit :=
  now <- millis ;;
  g <- get ;;
  emit (LoRaPacket
          (mkTelemetry now (state_ord (currentState g)) (threat_ord (currentThreat g))
             (if detected (birdData g)
              then Some (confidence (birdData g), distance (birdData g))
              else None))).

Definition performHealthCheck : M unit :=
  now <- millis ;;
  g <- get ;;
  if sub32 now (lastHealthCheck g) >=? 5000 then
    now' <- millis ;;
    modify (set_lastHealthCheck now')
  else ret tt.

(** Lines 136-140 of [loop]. *)
Definition checkEmergencyStop : M unit :=
  pin <- digitalRead_EMERGENCY_STOP ;;
  match pin with
  | LOW =>
      modify (set_emergencyStop true) ;;
      modify (set_currentState STATE_EMERGENCY)
  | HIGH => ret tt
  end.

(** Lines 142-146 of [loop]. *)
Definition sensorGate : M unit :=
  now <- millis ;;
  g <- get ;;
  if sub32 now (lastSensorUpdate g) >=? 100 then
    updateSensorData ;;
    now' <- millis ;;
    modify (set_lastSensorUpdate now')
  else ret tt.

(** Lines 160-164 of [loop]. *)
Definition telemetryGate : M unit :=
  now <- millis ;;
  g <- get ;;
  if sub32 now (lastTelemetryTime g) >=? 1000 then
    sendTelemetryData ;;
    now' <- millis ;;
    modify (set_lastTelemetryTime now')
  else ret tt.

Definition loop : M unit :=
  checkEmergencyStop ;;
  sensorGate ;;
  checkBirdDetection ;;
  updateSystemState ;;
  controlDeterrents ;;
  monitorPowerSystems ;;
  telemetryGate ;;
  performHealthCheck ;;
  emit (Delay 50).

(** The globals at the end of one iteration started from [g]. *)
Definition tick (inp : TickInput) (g : Globals) : Globals :=
  globals (exec loop inp (start g)).

(** The globals at the end of each of a sequence of iterations. *)
Fixpoint run (inps : list TickInput) (g : Globals) : list Globals :=
  match inps with
  | [] => []
  | inp :: rest => let g' := tick inp g in g' :: run rest g'
  end.

(** The steps [loop] runs, in order. *)
Definition loop_steps : list (M unit) :=
  [checkEmergencyStop; sensorGate; checkBirdDetection; updateSystemState;
   controlDeterrents; monitorPowerSystems; telemetryGate; performHealthCheck;
   emit (Delay 50)].

End Firmware.

(** ** Notions used to state the properties *)

(** Severity rank of a species code: other < crow (3) < hawk (2) < eagle (1). *)
Definition species_severity (s : Z) : Z :=
  if s =? 1 then 3
  else if s =? 2 then 2
  else if s =? 3 then 1
  else 0.

Definition with_distance (d : spec_float) (b : BirdDetection) : BirdDetection :=
  mkBird (detected b) (confidence b) d (bearing b) (species b) (timestamp b).

Definition with_confidence (c : Z) (b : BirdDetection) : BirdDetection :=
  mkBird (detected b) c (distance b) (bearing b) (species b) (timestamp b).

Definition with_species (s : Z) (b : BirdDetection) : BirdDetection :=
  mkBird (detected b) (confidence b) (distance b) (bearing b) s (timestamp b).

(** The threat level stored by [assessThreatLevel] when run on a machine. *)
Definition assessed (inp : TickInput) (m : Machine) : ThreatLevel :=
  currentThreat (globals (exec assessThreatLevel inp m)).

(** A machine whose detection record is [b]. *)
Definition holding (b : BirdDetection) (m : Machine) : Machine :=
  mkMachine (set_birdData b (globals m)) (clock_reads m) (writes m)
    (serial_log m).

(** The fields the decisions read and write. *)
Definition control (g : Globals)
  : SystemState * ThreatLevel * Z * bool * BirdDetection :=
  (currentState g, currentThreat g, deterrentActivationTime g,
   emergencyStop g, birdData g).

(** The emergency flag is set and the state is the emergency state. *)
Definition emergency_latched (g : Globals) : Prop :=
  emergencyStop g = true /\ currentState g = STATE_EMERGENCY.

(** A machine whose operating state is [s]. *)
Definition in_state (s : SystemState) (m : Machine) : Machine :=
  mkMachine (set_currentState s (globals m)) (clock_reads m) (writes m)
    (serial_log m).

(** The reading [millis()] returns next on machine [m]. *)
Definition next_millis (inp : TickInput) (m : Machine) : Z :=
  wrap32 (clock inp (clock_reads m)).

(** A detection of an eagle 40 m away at 80 % confidence, and globals that
    have been in the active state since time 0 on that detection, with a
    battery last sampled at 12 V. *)
Definition eagle_close : BirdDetection :=
  mkBird true 80 (float_of_int 40) (S754_zero false) 1 0.

Definition active_since_0 : Globals :=
  mkGlobals STATE_ACTIVE THREAT_HIGH 0 0 0 false eagle_close 0 0 12%R.

(** Nearest integer of a non-negative real, halves upward. *)
Definition spec_round (x : R) : Z := Int_part (x + / 2)%R.

(** The phase angle and the channel value as the specification words them:
    theta = (t mod 1000) / 1000 * 2 pi and
    round ((sin (theta + i pi / 2) + 1) / 2 * intensity). *)
Definition spec_theta (t : Z) : R := (IZR (t mod 1000) / 1000 * 2 * PI)%R.

Definition spec_channel_level (i : Z) (intensity t : Z) : R :=
  ((sin (spec_theta t + IZR i * PI / 2) + 1) / 2 * IZR intensity)%R.

Definition spec_strobe (i : Z) (intensity t : Z) : Z :=
  spec_round (spec_channel_level i intensity t).

(** [d] is the integer part of a non-negative value within 1/1000 of [x]:
    what the conversion to [int] keeps of a level computed with a small
    error.  [d] is then at most [x + 1/1000] and more than [x - 1/1000 - 1]. *)
Definition truncates_near (x : R) (d : Z) : Prop :=
  (IZR d <= x + / 1000 /\ x - / 1000 < IZR d + 1)%R.

(** An iteration with the emergency pin released and nothing on the serial
    link, the counter reading [t] throughout and the converter reading 3800
    (a battery above 12 V). *)
Definition quiet (t : Z) : TickInput := mkInput (fun _ => t) HIGH None 3800.

(** ** Start-up: [setup] and the initialisers it calls *)

Module Setup.

Definition LED_STROBE_1 : Z := 0.
Definition LED_STROBE_2 : Z := 1.
Definition LED_STROBE_3 : Z := 2.
Definition LED_STROBE_4 : Z := 3.
Definition AUDIO_PWM : Z := 5.
Definition LORA_CS : Z := 6.
Definition LORA_RST : Z := 7.
Definition I2C_SDA : Z := 8.
Definition I2C_SCL : Z := 9.
Definition LORA_DIO0 : Z := 15.
Definition STATUS_LED : Z := 47.

Inductive PinMode : Set := OUTPUT | INPUT_PULLUP.

(** The calls [setup] makes on the board and its peripherals, in order. *)
Inductive Event : Set :=
| SerialBegin (baud : Z)
| SerialPrintln (msg : string)
| SetPinMode (pin : Z) (mode : PinMode)
| LedcSetup (channel freq resolution : Z)
| LedcAttachPin (pin channel : Z)
| WireBegin (sda scl : Z)
| MpuBegin
| MpuSetAccelerometerRange (g : Z)
| MpuSetGyroRange (deg : Z)
| BmpBegin
| BmpSetSampling
| GpsSerialBegin (baud : Z)
| RpiSerialBegin (baud : Z)
| LoRaSetPins (cs rst dio0 : Z)
| LoRaBegin (hz : Z)
| LoRaSetSpreadingFactor (sf : Z)
| LoRaSetSignalBandwidth (hz : Z)
| LoRaSetCodingRate4 (denominator : Z)
| LoRaSetTxPower (dBm : Z)
| Write (w : HwWrite).

(** What the three [begin()] calls return. *)
Record InitResults : Set := mkInit {
  mpu_ok : bool;
  bmp_ok : bool;
  lora_ok : bool
}.

Definition initializeGPIO : list Event :=
  [SetPinMode LED_STROBE_1 OUTPUT;
   SetPinMode LED_STROBE_2 OUTPUT;
   SetPinMode LED_STROBE_3 OUTPUT;
   SetPinMode LED_STROBE_4 OUTPUT;
   SetPinMode AUDIO_ENABLE OUTPUT;
   SetPinMode AUDIO_PWM OUTPUT;
   SetPinMode STATUS_LED OUTPUT;
   SetPinMode EMERGENCY_STOP INPUT_PULLUP;
   LedcSetup 0 1000 8;
   LedcSetup 1 1000 8;
   LedcSetup 2 1000 8;
   LedcSetup 3 1000 8;
   LedcAttachPin LED_STROBE_1 0;
   LedcAttachPin LED_STROBE_2 1;
   LedcAttachPin LED_STROBE_3 2;
   LedcAttachPin LED_STROBE_4 3].

Definition initializeSensors (r : InitResults) : list Event :=
  [WireBegin I2C_SDA I2C_SCL; MpuBegin] ++
  (if mpu_ok r then
     [SerialPrintln "MPU6050 initialized successfully";
      MpuSetAccelerometerRange 8;
      MpuSetGyroRange 500]
   else
     [SerialPrintln "Failed to initialize MPU6050"]) ++
  [BmpBegin] ++
  (if bmp_ok r then
     [SerialPrintln "BMP280 initialized successfully"; BmpSetSampling]
   else
     [SerialPrintln "Failed to initialize BMP280"]) ++
  [GpsSerialBegin 9600; RpiSerialBegin 115200].

Definition initializeLoRa (r : InitResults) : list Event :=
  [LoRaSetPins LORA_CS LORA_RST LORA_DIO0; LoRaBegin 915000000] ++
  (if lora_ok r then
     [SerialPrintln "LoRa initialized successfully";
      LoRaSetSpreadingFactor 12;
      LoRaSetSignalBandwidth 125000;
      LoRaSetCodingRate4 8;
      LoRaSetTxPower 20]
   else
     [SerialPrintln "Failed to initialize LoRa"]).

Definition initializeAudio : list Event :=
  [Write (DigitalWrite AUDIO_ENABLE false);
   LedcSetup 4 44100 8;
   LedcAttachPin AUDIO_PWM 4;
   SerialPrintln "Audio system initialized"].

Definition initializeLEDStrobes : list Event :=
  [Write (LedcWrite 0 0);
   Write (LedcWrite 1 0);
   Write (LedcWrite 2 0);
   Write (LedcWrite 3 0);
   SerialPrintln "LED strobe system initialized"].

(** [setup]: the globals it leaves and the calls it makes. *)
Definition setup (r : InitResults) (g : Globals) : Globals * list Event :=
  (set_currentState STATE_STANDBY g,
   [SerialBegin 115200;
    SerialPrintln "Drone Bird Deterrent System - Initializing..."] ++
   initializeGPIO ++
   initializeSensors r ++
   initializeLoRa r ++
   initializeAudio ++
   initializeLEDStrobes ++
   [SerialPrintln "System initialization complete - Ready for operation";
    Write (DigitalWrite STATUS_LED true)]).

End Setup.

(** ** Battery monitoring, in exact arithmetic

    The formulas of lines 288-289 and 430-437 without the roundings of
    [batteryVoltageOf] and [batteryLevelOf]: what the two formulas compute
    when nothing is rounded, and, for the readings of the converter, what
    they decide in floating point too. *)

Module Power.

(** [sensors.batteryVoltage] for a reading [adcValue] of the converter. *)
Definition batteryVoltage (adcValue : Z) : R :=
  (IZR adcValue * 3.3 / 4095.0 * 4.0)%R.

Definition minVoltage : R := 9.0%R.
Definition maxVoltage : R := 12.6%R.

(** [powerStatus.batteryLevel]. *)
Definition batteryLevel (voltage : R) : R :=
  ((voltage - minVoltage) / (maxVoltage - minVoltage) * 100)%R.


(** [powerStatus.totalPower]. *)
Definition totalPower (power12V power5V power3V3 : R) : R :=
  (power12V + power5V + power3V3)%R.

End Power.

(** ** Further notions used to state properties *)

(** The clock advances by at most 60000 ms between any two reads of the
    iteration. *)
Definition tame_clock (inp : TickInput) : Prop :=
  forall i j, (i <= j)%nat ->
    sub32 (wrap32 (clock inp j)) (wrap32 (clock inp i)) <= 60000.

(** Nothing that decodes arrives on the serial link. *)
Definition no_detection (inp : TickInput) : Prop :=
  match rpi_rx inp with
  | None => True
  | Some line => rx_error line <> JsonOk
  end.

Section FirmwareNotions.
Context {fm : FloatModel}.

(** The machine once the pin has been sampled, the sensors refreshed and the
    serial link polled. *)
Definition polled (inp : TickInput) (g : Globals) : Machine :=
  exec checkBirdDetection inp
    (exec sensorGate inp (exec checkEmergencyStop inp (start g))).

(** The machine once [updateSystemState] has run as well. *)
Definition decided (inp : TickInput) (g : Globals) : Machine :=
  exec updateSystemState inp (polled inp g).

End FirmwareNotions.

(** The state [updateSystemState] chooses for a threat level. *)
Definition state_for (t : ThreatLevel) : SystemState :=
  match t with
  | THREAT_NONE => STATE_STANDBY
  | THREAT_LOW => STATE_ALERT
  | THREAT_MEDIUM | THREAT_HIGH => STATE_ACTIVE
  end.

(** The base intensity and the audio setting of a state. *)
Definition base_intensity (s : SystemState) : Z :=
  match s with
  | STATE_STANDBY => 0
  | STATE_ALERT => 50
  | STATE_ACTIVE => 255
  | STATE_EMERGENCY => 0
  end.

(** The held threat level is the assessment of the held detection. *)
Definition threat_consistent (g : Globals) : Prop :=
  currentThreat g = Scorer.assess (birdData g).

Definition is_u32 (x : Z) : Prop := 0 <= x < two32.

(** The detection record a decoded line is stored as at time [now]. *)
Definition bird_of_doc (d : JsonDoc) (now : Z) : BirdDetection :=
  mkBird (doc_detected d) (doc_confidence d) (doc_distance d)
    (doc_bearing d) (doc_species d) now.

(** * Properties *)

(** ** The state monad *)

Lemma exec_bind {A B} (c : M A) (k : A -> M B) inp m :
  exec (bind c k) inp m = exec (k (fst (c inp m))) inp (exec c inp m).
Proof. unfold exec, bind. destruct (c inp m); reflexivity. Qed.

Lemma exec_ret {A} (a : A) inp m : exec (ret a) inp m = m.
Proof. reflexivity. Qed.

(** ** Order facts on floats *)

Ltac cmp_cases :=
  repeat match goal with
  | |- context [PosDef.Pos.compare_cont Eq ?x ?y] =>
      change (PosDef.Pos.compare_cont Eq x y) with (Pos.compare x y)
  end;
  repeat match goal with
  | |- context [Z.compare ?x ?y] => destruct (Z.compare_spec x y)
  | |- context [Pos.compare ?x ?y] => destruct (Pos.compare_spec x y)
  end; simpl; try discriminate; try reflexivity; try lia.

Lemma SFle_lt_trans a b c :
  SFleb a b = true -> SFltb b c = true -> SFltb a c = true.
Proof.
  unfold SFleb, SFltb, SFcompare.
  destruct a as [sa|sa| |sa ma ea], b as [sb|sb| |sb mb eb], c as [sc|sc| |sc mc ec];
    try discriminate; try reflexivity;
    repeat match goal with s : bool |- _ => destruct s end;
    try discriminate; try reflexivity; cmp_cases.
Qed.

Lemma SFlt_irrefl_above a b :
  SFleb a b = true -> SFltb b a = false.
Proof.
  unfold SFleb, SFltb, SFcompare.
  destruct a as [sa|sa| |sa ma ea], b as [sb|sb| |sb mb eb];
    try discriminate; try reflexivity;
    repeat match goal with s : bool |- _ => destruct s end;
    try discriminate; try reflexivity; cmp_cases.
Qed.

Lemma f50_le_f200 : SFleb f50 f200 = true.
Proof. reflexivity. Qed.

Lemma f100_le_f200 : SFleb f100 f200 = true.
Proof. reflexivity. Qed.

Lemma f50_lt_f100 : SFltb f50 f100 = true.
Proof. reflexivity. Qed.

Lemma f100_lt_f200 : SFltb f100 f200 = true.
Proof. reflexivity. Qed.

(** ** Threat scorer *)

Module ScorerFacts.
Import Scorer.

Lemma distanceFactor_range d : 0 <= distanceFactor d <= 30.
Proof. unfold distanceFactor. repeat destruct (SFltb _ _); lia. Qed.

Lemma speciesFactor_range s : 0 <= speciesFactor s <= 20.
Proof. unfold speciesFactor. repeat destruct (_ =? _); lia. Qed.

(** No addition of the score leaves the range of [int]. *)
Lemma threatScore_in_int b :
  in_int (confidence b) -> in_int (threatScore b).
Proof.
  unfold in_int, int_min, int_max, threatScore, confidenceFactor. intros Hc.
  pose proof (distanceFactor_range (distance b)).
  pose proof (speciesFactor_range (species b)).
  assert (- 214748364 <= confidence b ÷ 10 <= 214748364).
  { split.
    - change (-214748364) with ((- 2 ^ 31) ÷ 10). apply Z.quot_le_mono; lia.
    - change 214748364 with ((2 ^ 31 - 1) ÷ 10). apply Z.quot_le_mono; lia. }
  lia.
Qed.

(** A bird at least as near gets at least the same distance factor. *)
Lemma distanceFactor_antitone d d' :
  SFleb d' d = true -> distanceFactor d <= distanceFactor d'.
Proof.
  intros Hle. unfold distanceFactor.
  destruct (SFltb d f50) eqn:H50.
  { rewrite (SFle_lt_trans _ _ _ Hle H50). lia. }
  destruct (SFltb d f100) eqn:H100.
  { rewrite (SFle_lt_trans _ _ _ Hle H100). destruct (SFltb d' f50); lia. }
  destruct (SFltb d f200) eqn:H200.
  { rewrite (SFle_lt_trans _ _ _ Hle H200).
    destruct (SFltb d' f50), (SFltb d' f100); lia. }
  repeat destruct (SFltb d' _); lia.
Qed.

Lemma distanceFactor_far d :
  SFleb f200 d = true -> distanceFactor d = 0.
Proof.
  intros Hfar. unfold distanceFactor.
  assert (H200 : SFltb d f200 = false) by (apply SFlt_irrefl_above; exact Hfar).
  assert (H100 : SFltb d f100 = false).
  { destruct (SFltb d f100) eqn:E; [|reflexivity].
    pose proof (SFle_lt_trans _ _ _ Hfar E) as C. discriminate C. }
  assert (H50 : SFltb d f50 = false).
  { destruct (SFltb d f50) eqn:E; [|reflexivity].
    pose proof (SFle_lt_trans _ _ _ Hfar E) as C. discriminate C. }
  rewrite H50, H100, H200. reflexivity.
Qed.

Lemma confidenceFactor_mono c c' :
  c <= c' -> confidenceFactor c <= confidenceFactor c'.
Proof. intros H. unfold confidenceFactor. apply Z.quot_le_mono; lia. Qed.

(** On a non-negative confidence the truncating quotient is the floor. *)
Lemma confidenceFactor_floor c :
  0 <= c -> confidenceFactor c = c / 10.
Proof. intros H. unfold confidenceFactor. apply Z.quot_div_nonneg; lia. Qed.

(** On a negative confidence it is not: -5 / 10 is 0 in C, its floor is -1. *)
Lemma confidenceFactor_truncates :
  confidenceFactor (-5) = 0 /\ (-5) / 10 = -1.
Proof. split; reflexivity. Qed.

Lemma speciesFactor_mono s s' :
  species_severity s <= species_severity s' -> speciesFactor s <= speciesFactor s'.
Proof.
  unfold species_severity, speciesFactor.
  destruct (Z.eqb_spec s 1), (Z.eqb_spec s 2), (Z.eqb_spec s 3),
    (Z.eqb_spec s' 1), (Z.eqb_spec s' 2), (Z.eqb_spec s' 3); simpl; lia.
Qed.

Lemma levelOfScore_mono x y :
  x <= y -> threat_ord (levelOfScore x) <= threat_ord (levelOfScore y).
Proof.
  intros H. unfold levelOfScore.
  destruct (Z.geb_spec x 50), (Z.geb_spec x 30), (Z.geb_spec x 15),
    (Z.geb_spec y 50), (Z.geb_spec y 30), (Z.geb_spec y 15); simpl; lia.
Qed.

(** [assessThreatLevel] stores the level of the held detection and touches
    nothing else. *)
Lemma assessThreatLevel_stores inp m :
  exec assessThreatLevel inp m =
  mkMachine (set_currentThreat (assess (birdData (globals m))) (globals m))
    (clock_reads m) (writes m) (serial_log m).
Proof.
  unfold assessThreatLevel, assess. rewrite exec_bind. simpl.
  destruct (detected (birdData (globals m))); reflexivity.
Qed.

Lemma assessed_assess inp m : assessed inp m = assess (birdData (globals m)).
Proof. unfold assessed. rewrite assessThreatLevel_stores. reflexivity. Qed.

End ScorerFacts.

Section ScorerClaims.
Import Scorer ScorerFacts.

(** C3. A detection whose [detected] flag is false is assessed as
    [THREAT_NONE] whatever its confidence, distance, bearing and species:
    both when [assessThreatLevel] runs on it and when it arrives, decoded,
    through [checkBirdDetection]. *)
Theorem undetected_is_no_threat :
  (forall inp m c d bg s ts,
      assessed inp (holding (mkBird false c d bg s ts) m) = THREAT_NONE) /\
  (forall clk pin adc m c d bg s,
      currentThreat
        (globals (exec checkBirdDetection
                    (mkInput clk pin (Some (mkRx JsonOk (mkDoc false c d bg s)))
                       adc) m))
      = THREAT_NONE).
Proof.
  split.
  - intros. rewrite assessed_assess. reflexivity.
  - intros. reflexivity.
Qed.

(** C4. For a detection with [detected] set (and a confidence that is not
    negative, as a percentage is), the score is the sum of the distance
    band (+30 below 50, else +20 below 100, else +10 below 200, else +0),
    of the floor of confidence/10 and of the species points (+20 eagle,
    +15 hawk, +10 crow, +0 otherwise); the stored level is High from 50,
    Medium from 30, Low from 15 and None below.  The detection with
    confidence 80, distance 40 and species eagle scores 58 and is High. *)
Theorem threat_score_formula :
  (forall inp m b,
      detected b = true -> 0 <= confidence b ->
      threatScore b =
        (if SFltb (distance b) f50 then 30
         else if SFltb (distance b) f100 then 20
         else if SFltb (distance b) f200 then 10 else 0)
        + confidence b / 10
        + match species b with 1 => 20 | 2 => 15 | 3 => 10 | _ => 0 end
      /\ assessed inp (holding b m) =
           (if 50 <=? threatScore b then THREAT_HIGH
            else if 30 <=? threatScore b then THREAT_MEDIUM
            else if 15 <=? threatScore b then THREAT_LOW
            else THREAT_NONE)) /\
  (forall inp m bg ts,
      threatScore (mkBird true 80 (float_of_int 40) bg 1 ts) = 58 /\
      assessed inp (holding (mkBird true 80 (float_of_int 40) bg 1 ts) m)
      = THREAT_HIGH).
Proof.
  split.
  - intros inp m b Hdet Hconf. split.
    + unfold threatScore. rewrite (confidenceFactor_floor _ Hconf).
      unfold distanceFactor, speciesFactor.
      destruct (species b) as [|[p|p|]|p]; try reflexivity;
        destruct p as [p|p|]; reflexivity.
    + rewrite assessed_assess. simpl. unfold assess. rewrite Hdet. simpl.
      unfold levelOfScore. rewrite !Z.geb_leb. reflexivity.
  - intros. rewrite assessed_assess. split; reflexivity.
Qed.

Lemma threat_score_formula_witness :
  threatScore (mkBird true 20 (float_of_int 150) (S754_zero false) 4 0) = 10 + 20 / 10 + 0
  /\ assessed (quiet 0)
       (holding (mkBird true 20 (float_of_int 150) (S754_zero false) 4 0)
          (start initial_globals)) = THREAT_NONE.
Proof.
  apply (proj1 threat_score_formula (quiet 0) (start initial_globals)
           (mkBird true 20 (float_of_int 150) (S754_zero false) 4 0)).
  - reflexivity.
  - simpl. lia.
Defined.

(** C5. With [detected] set and the other factors held fixed, the score,
    and with it the threat level in the order None < Low < Medium < High,
    does not decrease when the distance decreases, when the confidence
    increases, or when the species becomes more severe in the order
    other < crow < hawk < eagle. *)
Theorem threat_score_monotone :
  forall inp m b,
    detected b = true ->
    (forall d', SFleb d' (distance b) = true ->
       threatScore b <= threatScore (with_distance d' b) /\
       threat_ord (assessed inp (holding b m))
       <= threat_ord (assessed inp (holding (with_distance d' b) m))) /\
    (forall c', confidence b <= c' ->
       threatScore b <= threatScore (with_confidence c' b) /\
       threat_ord (assessed inp (holding b m))
       <= threat_ord (assessed inp (holding (with_confidence c' b) m))) /\
    (forall s', species_severity (species b) <= species_severity s' ->
       threatScore b <= threatScore (with_species s' b) /\
       threat_ord (assessed inp (holding b m))
       <= threat_ord (assessed inp (holding (with_species s' b) m))).
Proof.
  intros inp m b Hdet.
  assert (level : forall b', detected b' = true ->
            threatScore b <= threatScore b' ->
            threat_ord (assessed inp (holding b m))
            <= threat_ord (assessed inp (holding b' m))).
  { intros b' Hdet' Hle. rewrite !assessed_assess. simpl. unfold assess.
    rewrite Hdet, Hdet'. simpl. apply levelOfScore_mono, Hle. }
  repeat split.
  - unfold threatScore. simpl.
    pose proof (distanceFactor_antitone _ _ H). lia.
  - apply level; [exact Hdet|]. unfold threatScore. simpl.
    pose proof (distanceFactor_antitone _ _ H). lia.
  - unfold threatScore. simpl.
    pose proof (confidenceFactor_mono _ _ H). lia.
  - apply level; [exact Hdet|]. unfold threatScore. simpl.
    pose proof (confidenceFactor_mono _ _ H). lia.
  - unfold threatScore. simpl.
    pose proof (speciesFactor_mono _ _ H). lia.
  - apply level; [exact Hdet|]. unfold threatScore. simpl.
    pose proof (speciesFactor_mono _ _ H). lia.
Qed.

Lemma threat_score_monotone_witness :
  threatScore (mkBird true 45 (float_of_int 120) (S754_zero false) 3 0)
  <= threatScore (with_distance (float_of_int 60)
                    (mkBird true 45 (float_of_int 120) (S754_zero false) 3 0)) /\
  threatScore (mkBird true 45 (float_of_int 120) (S754_zero false) 3 0)
  <= threatScore (with_confidence 90
                    (mkBird true 45 (float_of_int 120) (S754_zero false) 3 0)) /\
  threat_ord (assessed (quiet 0)
                (holding (mkBird true 45 (float_of_int 120) (S754_zero false) 3 0)
                   (start initial_globals)))
  <= threat_ord (assessed (quiet 0)
                   (holding (with_species 1
                      (mkBird true 45 (float_of_int 120) (S754_zero false) 3 0))
                      (start initial_globals))).
Proof.
  destruct (threat_score_monotone (quiet 0) (start initial_globals)
              (mkBird true 45 (float_of_int 120) (S754_zero false) 3 0)
              eq_refl) as (Hd & Hc & Hs).
  split; [|split].
  - apply Hd. reflexivity.
  - apply Hc. simpl. lia.
  - apply Hs. unfold species_severity. simpl. lia.
Defined.

(** C10. A detection with [detected] set, a distance of at least 200, a
    species code other than 1, 2 and 3 and a confidence between 0 and 100
    is assessed as [THREAT_NONE]. *)
Theorem distant_unknown_bird_is_no_threat :
  forall inp m b,
    detected b = true ->
    SFleb f200 (distance b) = true ->
    species b <> 1 -> species b <> 2 -> species b <> 3 ->
    0 <= confidence b <= 100 ->
    assessed inp (holding b m) = THREAT_NONE.
Proof.
  intros inp m b Hdet Hfar H1 H2 H3 Hconf.
  rewrite assessed_assess. simpl. unfold assess. rewrite Hdet. simpl.
  unfold threatScore. rewrite (distanceFactor_far _ Hfar).
  unfold speciesFactor.
  destruct (Z.eqb_spec (species b) 1); [contradiction|].
  destruct (Z.eqb_spec (species b) 2); [contradiction|].
  destruct (Z.eqb_spec (species b) 3); [contradiction|].
  rewrite confidenceFactor_floor by lia.
  assert (0 <= confidence b / 10 <= 10).
  { split; [apply Z.div_pos; lia | apply Z.div_le_upper_bound; lia]. }
  unfold levelOfScore.
  destruct (Z.geb_spec (0 + 0 + confidence b / 10 + 0) 50); [lia|].
  destruct (Z.geb_spec (0 + 0 + confidence b / 10 + 0) 30); [lia|].
  destruct (Z.geb_spec (0 + 0 + confidence b / 10 + 0) 15); [lia|].
  reflexivity.
Qed.

Lemma distant_unknown_bird_witness :
  assessed (quiet 0)
    (holding (mkBird true 100 (float_of_int 500) (S754_zero false) 0 0)
       (start initial_globals)) = THREAT_NONE.
Proof.
  apply distant_unknown_bird_is_no_threat; simpl;
    try reflexivity; try discriminate; lia.
Defined.

End ScorerClaims.

Section FirmwareProperties.
Context {fm : FloatModel}.

(** ** Frames of the loop's steps *)

Lemma exec_seq (c1 c2 : M unit) inp m :
  exec (c1 ;; c2) inp m = exec c2 inp (exec c1 inp m).
Proof. unfold exec, bind. destruct (c1 inp m); reflexivity. Qed.

Lemma setLEDStrobes_globals i inp m :
  globals (exec (setLEDStrobes i) inp m) = globals m.
Proof. reflexivity. Qed.

Lemma setAudioDeterrent_globals e inp m :
  globals (exec (setAudioDeterrent e) inp m) = globals m.
Proof. destruct e; reflexivity. Qed.

Lemma sensorGate_control inp m :
  control (globals (exec sensorGate inp m)) = control (globals m).
Proof.
  unfold sensorGate, exec, bind, millis, get. simpl.
  destruct (_ >=? _); reflexivity.
Qed.

Lemma telemetryGate_control inp m :
  control (globals (exec telemetryGate inp m)) = control (globals m).
Proof.
  unfold telemetryGate, exec, bind, millis, get. simpl.
  destruct (_ >=? _); reflexivity.
Qed.

Lemma performHealthCheck_control inp m :
  control (globals (exec performHealthCheck inp m)) = control (globals m).
Proof.
  unfold performHealthCheck, exec, bind, millis, get. simpl.
  destruct (_ >=? _); reflexivity.
Qed.

Lemma checkBirdDetection_flag inp m :
  emergencyStop (globals (exec checkBirdDetection inp m))
  = emergencyStop (globals m).
Proof.
  unfold checkBirdDetection, exec, bind, rpiSerial_read. simpl.
  destruct (rpi_rx inp) as [line|]; [|reflexivity].
  destruct (rx_error line); try reflexivity.
  unfold assessThreatLevel, bind, get, modify, millis. simpl.
  destruct (doc_detected (rx_doc line)); reflexivity.
Qed.

(** [loop] runs the steps of [loop_steps] one after the other. *)
Lemma loop_runs_its_steps inp m :
  exec loop inp m = fold_left (fun m' c => exec c inp m') loop_steps m.
Proof. unfold loop. rewrite !exec_seq. reflexivity. Qed.

(** What follows [controlDeterrents] in the loop leaves the decision fields
    alone. *)
Lemma loop_tail_control inp m :
  control (globals (exec (monitorPowerSystems ;; telemetryGate ;;
                          performHealthCheck ;; emit (Delay 50)) inp m))
  = control (globals m).
Proof.
  rewrite !exec_seq. simpl.
  change (control (globals (exec performHealthCheck inp
            (exec telemetryGate inp (exec monitorPowerSystems inp m))))
          = control (globals m)).
  rewrite performHealthCheck_control, telemetryGate_control. reflexivity.
Qed.

Lemma updateSystemState_emergency inp m :
  emergencyStop (globals m) = true ->
  globals (exec updateSystemState inp m)
  = set_currentState STATE_EMERGENCY (globals m).
Proof.
  intros H. unfold updateSystemState, exec, bind, get. simpl.
  rewrite H. reflexivity.
Qed.

Lemma controlDeterrents_emergency inp m :
  currentState (globals m) = STATE_EMERGENCY ->
  globals (exec controlDeterrents inp m) = globals m.
Proof.
  intros H. unfold controlDeterrents, exec, bind, get. simpl.
  rewrite H. reflexivity.
Qed.

Lemma checkEmergencyStop_flag inp m :
  emergencyStop (globals (exec checkEmergencyStop inp m))
  = match emergency_pin inp with
    | LOW => true
    | HIGH => emergencyStop (globals m)
    end.
Proof.
  unfold checkEmergencyStop, exec, bind, digitalRead_EMERGENCY_STOP. simpl.
  destruct (emergency_pin inp); reflexivity.
Qed.

(** An iteration that samples the pin low, or starts with the flag set,
    ends with the flag set and in the emergency state. *)
Lemma tick_emergency inp g :
  emergency_pin inp = LOW \/ emergencyStop g = true ->
  emergencyStop (tick inp g) = true /\ currentState (tick inp g) = STATE_EMERGENCY.
Proof.
  intros H. unfold tick, loop.
  do 5 rewrite exec_seq.
  set (m1 := exec checkEmergencyStop inp (start g)).
  set (m2 := exec sensorGate inp m1).
  set (m3 := exec checkBirdDetection inp m2).
  set (m4 := exec updateSystemState inp m3).
  set (m5 := exec controlDeterrents inp m4).
  assert (F1 : emergencyStop (globals m1) = true).
  { unfold m1. rewrite checkEmergencyStop_flag.
    destruct H as [-> | H]; [reflexivity|].
    destruct (emergency_pin inp); [reflexivity | exact H]. }
  assert (F2 : emergencyStop (globals m2) = true).
  { pose proof (sensorGate_control inp m1) as C. unfold control in C.
    fold m2 in C. congruence. }
  assert (F3 : emergencyStop (globals m3) = true).
  { unfold m3. rewrite checkBirdDetection_flag. exact F2. }
  assert (G4 : globals m4 = set_currentState STATE_EMERGENCY (globals m3)).
  { apply updateSystemState_emergency, F3. }
  assert (G5 : globals m5 = globals m4).
  { apply controlDeterrents_emergency. rewrite G4. reflexivity. }
  pose proof (loop_tail_control inp m5) as C. unfold control in C.
  injection C as Cs _ _ Cf _.
  rewrite Cs, Cf, G5, G4. simpl. split; [exact F3 | reflexivity].
Qed.

Lemma updateSystemState_flag inp m :
  emergencyStop (globals (exec updateSystemState inp m))
  = emergencyStop (globals m).
Proof.
  unfold updateSystemState, exec, bind, get. simpl.
  destruct (emergencyStop (globals m)) eqn:E; [simpl; exact E|].
  destruct (currentThreat (globals m)); simpl; exact E.
Qed.

Lemma controlDeterrents_flag inp m :
  emergencyStop (globals (exec controlDeterrents inp m))
  = emergencyStop (globals m).
Proof.
  unfold controlDeterrents, exec, bind, get. simpl.
  destruct (currentState (globals m)); try reflexivity.
  simpl. destruct (_ >? _); reflexivity.
Qed.

(** ** Emergency stop *)

(** C2. Whatever the current state, the threat level and the activation
    stamp, [updateSystemState] run with the emergency flag set stores
    [STATE_EMERGENCY] and changes nothing else; and an iteration of the loop
    that samples the emergency pin low ends in [STATE_EMERGENCY] whatever
    arrives on the serial link and whatever the clock reads. *)
Theorem emergency_preempts :
  (forall inp s t lt ls dt bd st lh bv n w out,
      exec updateSystemState inp
        (mkMachine (mkGlobals s t lt ls dt true bd st lh bv) n w out)
      = mkMachine (mkGlobals STATE_EMERGENCY t lt ls dt true bd st lh bv)
          n w out) /\
  (forall clk rx adc g,
      currentState (tick (mkInput clk LOW rx adc) g) = STATE_EMERGENCY).
Proof.
  split.
  - intros. reflexivity.
  - intros. apply tick_emergency. left. reflexivity.
Qed.

(** C9. An iteration that samples the emergency pin low sets the emergency
    flag; no step of the loop clears the flag; an iteration started with the
    flag set ends with the flag set and in [STATE_EMERGENCY], so that this
    pair is preserved by every iteration; hence after the pin has read low
    once, every later iteration ends in [STATE_EMERGENCY] with the flag set,
    whatever the pin then reads. *)
Theorem emergency_latches :
  (forall inp g, emergency_pin inp = LOW -> emergency_latched (tick inp g)) /\
  (forall c, In c loop_steps ->
     forall inp m, emergencyStop (globals m) = true ->
                   emergencyStop (globals (exec c inp m)) = true) /\
  (forall inp g, emergency_latched g -> emergency_latched (tick inp g)) /\
  (forall inp later g,
     emergency_pin inp = LOW ->
     Forall emergency_latched (run (inp :: later) g)).
Proof.
  assert (keep : forall inp g, emergency_latched g -> emergency_latched (tick inp g)).
  { intros inp g [Hf _]. apply tick_emergency. right. exact Hf. }
  split; [|split; [|split]].
  - intros inp g Hpin. apply tick_emergency. left. exact Hpin.
  - intros c Hin inp m Hf. simpl in Hin.
    repeat (destruct Hin as [<- | Hin]); try contradiction.
    + rewrite checkEmergencyStop_flag. destruct (emergency_pin inp); auto.
    + pose proof (sensorGate_control inp m) as C. unfold control in C. congruence.
    + rewrite checkBirdDetection_flag. exact Hf.
    + rewrite updateSystemState_flag. exact Hf.
    + rewrite controlDeterrents_flag. exact Hf.
    + exact Hf.
    + pose proof (telemetryGate_control inp m) as C. unfold control in C. congruence.
    + pose proof (performHealthCheck_control inp m) as C. unfold control in C. congruence.
    + exact Hf.
  - exact keep.
  - intros inp later g Hpin. simpl.
    assert (H0 : emergency_latched (tick inp g)).
    { apply tick_emergency. left. exact Hpin. }
    constructor; [exact H0|].
    generalize dependent (tick inp g). clear Hpin.
    induction later as [|i later IH]; intros g' Hg'; simpl.
    + constructor.
    + constructor; [apply keep, Hg' | apply IH, keep, Hg'].
Qed.

(** The detection of an eagle at 40 m with confidence 80, received on a
    quiet system, raises the threat to high and the state to active. *)
Lemma eagle_detection_activates :
  let inp := mkInput (fun _ => 1000) HIGH
               (Some (mkRx JsonOk
                        (mkDoc true 80 (float_of_int 40) (S754_zero false) 1)))
               3800 in
  currentThreat (tick inp initial_globals) = THREAT_HIGH /\
  currentState (tick inp initial_globals) = STATE_ACTIVE.
Proof. split; vm_compute; reflexivity. Qed.

(** ** Detection polling *)

(** C8. A received line whose decoding reports an error is dropped:
    [checkBirdDetection] leaves the machine as it found it, so the stored
    detection, the threat level and the operating state are unchanged and
    the scorer has stored nothing. *)
Theorem undecodable_line_is_dropped :
  forall inp m line,
    rpi_rx inp = Some line ->
    rx_error line <> JsonOk ->
    exec checkBirdDetection inp m = m.
Proof.
  intros inp m line Hrx Herr.
  unfold checkBirdDetection, exec, bind, rpiSerial_read. simpl.
  rewrite Hrx. destruct (rx_error line); try reflexivity.
  contradiction Herr. reflexivity.
Qed.

Lemma undecodable_line_witness :
  exec checkBirdDetection
    (mkInput (fun _ => 0) HIGH
       (Some (mkRx InvalidInput (mkDoc true 100 f50 f50 1))) 3800)
    (start active_since_0)
  = start active_since_0.
Proof.
  apply (undecodable_line_is_dropped _ _
           (mkRx InvalidInput (mkDoc true 100 f50 f50 1))).
  - reflexivity.
  - simpl. discriminate.
Defined.

(** ** The 60-second timeout *)

(** Entered in the active state with more than 60000 ms on the clock since
    the activation stamp, [controlDeterrents] stores [STATE_ALERT]. *)
Lemma controlDeterrents_timeout inp m :
  currentState (globals m) = STATE_ACTIVE ->
  sub32 (wrap32 (clock inp (S (S (clock_reads m)))))
        (deterrentActivationTime (globals m)) > 60000 ->
  currentState (globals (exec controlDeterrents inp m)) = STATE_ALERT.
Proof.
  intros Hs Ht. unfold controlDeterrents, exec, bind, get. simpl.
  rewrite Hs. simpl.
  destruct (Z.gtb_spec
              (sub32 (wrap32 (clock inp (S (S (clock_reads m)))))
                 (deterrentActivationTime (globals m))) 60000).
  - reflexivity.
  - lia.
Qed.

(** With a medium or high threat held, [updateSystemState] stamps the
    activation time anew on every call. *)
Lemma updateSystemState_restamps inp m :
  emergencyStop (globals m) = false ->
  currentThreat (globals m) = THREAT_MEDIUM \/ currentThreat (globals m) = THREAT_HIGH ->
  exec updateSystemState inp m
  = mkMachine
      (set_deterrentActivationTime (next_millis inp m)
         (set_currentState STATE_ACTIVE (globals m)))
      (S (clock_reads m)) (writes m) (serial_log m).
Proof.
  intros Hf Ht. unfold updateSystemState, exec, bind, get. simpl.
  rewrite Hf. destruct Ht as [-> | ->]; reflexivity.
Qed.

(** So the timeout of [controlDeterrents] cannot fire in the loop: with a
    medium or high threat held, no new line on the serial link and a clock
    that advances by at most 60000 ms between two reads of one iteration,
    the iteration ends in the active state, stamped within it. *)
Lemma stale_threat_rearms inp g :
  emergency_pin inp = HIGH ->
  emergencyStop g = false ->
  rpi_rx inp = None ->
  currentThreat g = THREAT_MEDIUM \/ currentThreat g = THREAT_HIGH ->
  (forall i j, (i <= j)%nat ->
     sub32 (wrap32 (clock inp j)) (wrap32 (clock inp i)) <= 60000) ->
  currentState (tick inp g) = STATE_ACTIVE /\
  exists k, deterrentActivationTime (tick inp g) = wrap32 (clock inp k).
Proof.
  intros Hpin Hf Hrx Ht Hclk. unfold tick, loop.
  do 5 rewrite exec_seq.
  set (m1 := exec checkEmergencyStop inp (start g)).
  set (m2 := exec sensorGate inp m1).
  set (m3 := exec checkBirdDetection inp m2).
  set (m4 := exec updateSystemState inp m3).
  set (m5 := exec controlDeterrents inp m4).
  assert (G1 : globals m1 = g).
  { unfold m1, checkEmergencyStop, exec, bind, digitalRead_EMERGENCY_STOP.
    simpl. rewrite Hpin. reflexivity. }
  pose proof (sensorGate_control inp m1) as C2. fold m2 in C2.
  unfold control in C2. rewrite G1 in C2. injection C2 as _ T2 _ F2 _.
  assert (E3 : m3 = m2).
  { unfold m3, checkBirdDetection, exec, bind, rpiSerial_read. simpl.
    rewrite Hrx. reflexivity. }
  assert (E4 : m4 = mkMachine
                 (set_deterrentActivationTime (next_millis inp m2)
                    (set_currentState STATE_ACTIVE (globals m2)))
                 (S (clock_reads m2)) (writes m2) (serial_log m2)).
  { unfold m4. rewrite E3. apply updateSystemState_restamps; congruence. }
  assert (G5 : globals m5 = globals m4).
  { unfold m5. rewrite E4.
    unfold controlDeterrents, exec, bind, get. simpl.
    destruct (Z.gtb_spec
                (sub32 (wrap32 (clock inp (S (S (S (clock_reads m2))))))
                   (next_millis inp m2)) 60000) as [Hgt|Hle].
    - unfold next_millis in Hgt.
      pose proof (Hclk (clock_reads m2) (S (S (S (clock_reads m2))))
                    ltac:(lia)). lia.
    - reflexivity. }
  pose proof (loop_tail_control inp m5) as C. unfold control in C.
  injection C as Cs _ Cd _ _.
  rewrite Cs, Cd, G5, E4. simpl. split; [reflexivity|].
  exists (clock_reads m2). reflexivity.
Qed.

(** C1, on the code.  The globals [active_since_0] are in the active state
    on a high threat stamped at time 0.  An iteration at time 70000, with
    the emergency pin released and nothing received, finds more than
    60000 ms elapsed since the stamp; it nevertheless ends in the active
    state with the stamp moved to 70000, and so does the following one. *)
Theorem stale_high_threat_stays_active :
  currentState active_since_0 = STATE_ACTIVE /\
  sub32 70000 (deterrentActivationTime active_since_0) > 60000 /\
  currentState (tick (quiet 70000) active_since_0) = STATE_ACTIVE /\
  deterrentActivationTime (tick (quiet 70000) active_since_0) = 70000 /\
  map currentState (run [quiet 70000; quiet 140000; quiet 210000] active_since_0)
  = [STATE_ACTIVE; STATE_ACTIVE; STATE_ACTIVE].
Proof.
  repeat split; vm_compute; reflexivity.
Qed.

(** ** Strobe and tone shaping *)

Section Shaping.
Local Open Scope R_scope.

(** On a non-negative value the conversion to [int] is the integer part. *)
Lemma double_to_int_nonneg x :
  0 <= x -> (IZR (double_to_int x) <= x < IZR (double_to_int x) + 1).
Proof.
  intros Hx. unfold double_to_int.
  destruct (Rle_dec 0 x) as [_|n]; [|contradiction].
  pose proof (base_Int_part x) as [H1 H2]. lra.
Qed.

Lemma double_to_int_unique x (z : Z) :
  IZR z <= x < IZR z + 1 -> 0 <= x -> double_to_int x = z.
Proof.
  intros Hz Hx. unfold double_to_int.
  destruct (Rle_dec 0 x) as [_|n]; [|contradiction].
  symmetry. apply Int_part_spec. lra.
Qed.

Lemma double_to_int_0 : double_to_int 0 = 0%Z.
Proof. apply double_to_int_unique; simpl; lra. Qed.

Lemma double_to_int_bounded x (hi : Z) :
  0 <= x <= IZR hi -> (0 <= double_to_int x <= hi)%Z.
Proof.
  intros [H0 H1]. pose proof (double_to_int_nonneg x H0) as [Ha Hb]. split.
  - apply Z.lt_succ_r, lt_IZR. rewrite succ_IZR. simpl. lra.
  - apply le_IZR. lra.
Qed.

(** A rounding leaves the integers up to 2^24 and their halves unchanged,
    and keeps a value between two such integers between them. *)
Lemma rnd64_int (n : Z) : (Z.abs n <= 2 ^ 24)%Z -> rnd64 (IZR n) = IZR n.
Proof.
  intros H. pose proof (rnd64_exact n 0 H ltac:(lia)) as E. simpl in E.
  replace (IZR n / 1) with (IZR n) in E by field. exact E.
Qed.

Lemma rnd32_int (n : Z) : (Z.abs n <= 2 ^ 24)%Z -> rnd32 (IZR n) = IZR n.
Proof.
  intros H. pose proof (rnd32_exact n 0 H ltac:(lia)) as E. simpl in E.
  replace (IZR n / 1) with (IZR n) in E by field. exact E.
Qed.

Lemma rnd64_half (n : Z) :
  (Z.abs n <= 2 ^ 24)%Z -> rnd64 (IZR n / 2) = IZR n / 2.
Proof.
  intros H. pose proof (rnd64_exact n 1 H ltac:(lia)) as E. simpl in E.
  rewrite Rmult_1_r in E. exact E.
Qed.

Lemma rnd64_between (lo hi : Z) x :
  (Z.abs lo <= 2 ^ 24)%Z -> (Z.abs hi <= 2 ^ 24)%Z ->
  IZR lo <= x <= IZR hi -> IZR lo <= rnd64 x <= IZR hi.
Proof.
  intros Hlo Hhi [H1 H2]. split.
  - rewrite <- (rnd64_int lo Hlo). apply rnd64_mono, H1.
  - rewrite <- (rnd64_int hi Hhi). apply rnd64_mono, H2.
Qed.

(** The level of a channel before conversion lies between 0 and the
    intensity. *)
Lemma strobeLevel_bounds sine (intensity : Z) :
  -1 <= sine <= 1 ->
  (0 <= intensity <= 255)%Z ->
  0 <= strobeLevel sine intensity <= IZR intensity.
Proof.
  intros [Hlo Hhi] [Hi0 Hi1]. unfold strobeLevel.
  pose proof (IZR_le _ _ Hi0) as Ri0. pose proof (IZR_le _ _ Hi1) as Ri1.
  simpl in Ri0.
  assert (H1 : 0 <= rnd64 (sine + 1) <= 2).
  { apply (rnd64_between 0 2); simpl; try lia; lra. }
  assert (H2 : 0 <= rnd64 (rnd64 (sine + 1) * IZR intensity)
               <= IZR (2 * intensity)).
  { apply (rnd64_between 0 (2 * intensity)); try lia.
    rewrite mult_IZR. split.
    - apply Rmult_le_pos; lra.
    - apply Rmult_le_compat_r; lra. }
  rewrite mult_IZR in H2.
  assert (H3 : IZR 0 / 2
               <= rnd64 (rnd64 (rnd64 (sine + 1) * IZR intensity) / 2)
               <= IZR (2 * intensity) / 2).
  { split.
    - rewrite <- (rnd64_half 0) by (simpl; lia). apply rnd64_mono. lra.
    - rewrite <- (rnd64_half (2 * intensity)) by lia.
      apply rnd64_mono. rewrite mult_IZR. lra. }
  rewrite mult_IZR in H3. lra.
Qed.

Lemma strobeLevel_zero sine : -1 <= sine <= 1 -> strobeLevel sine 0 = 0.
Proof.
  intros Hs. pose proof (strobeLevel_bounds sine 0 Hs ltac:(lia)) as H.
  simpl in H. lra.
Qed.

Lemma strobePhase_zero off t : strobePhase off 0 t = 0%Z.
Proof.
  unfold strobePhase. rewrite strobeLevel_zero by apply libm_sin_range.
  apply double_to_int_0.
Qed.

Lemma phase1_zero t : phase1 0 t = 0%Z.
Proof.
  unfold phase1. rewrite strobeLevel_zero by apply libm_sinf_range.
  apply double_to_int_0.
Qed.

Lemma strobePhase_within off intensity t :
  (0 <= intensity <= 255)%Z ->
  (0 <= strobePhase off intensity t <= intensity)%Z.
Proof.
  intros Hi. unfold strobePhase. apply double_to_int_bounded.
  apply strobeLevel_bounds; [apply libm_sin_range | exact Hi].
Qed.

Lemma phase1_within intensity t :
  (0 <= intensity <= 255)%Z -> (0 <= phase1 intensity t <= intensity)%Z.
Proof.
  intros Hi. unfold phase1. apply double_to_int_bounded.
  apply strobeLevel_bounds; [apply libm_sinf_range | exact Hi].
Qed.



End Shaping.

(** ** Accuracy of the strobe levels *)

Section Accuracy.
Local Open Scope R_scope.
Hypothesis Hacc : accurate fm.

Lemma Rabs_between a b : Rabs a <= b -> - b <= a <= b.
Proof.
  intros H. unfold Rabs in H. destruct (Rcase_abs a); lra.
Qed.

(** On arguments up to 8192 a [double] operation is within 10^-12 of the
    exact one; on arguments up to 8 a [float] one is within 4.8 10^-7. *)
Lemma rnd64_near x :
  - 8192 <= x <= 8192 ->
  x - / 1000000000000 <= rnd64 x <= x + / 1000000000000.
Proof.
  intros Hx. destruct Hacc as (H64 & _ & _).
  pose proof (Rabs_between _ _ (H64 x)) as Hb.
  assert (Rabs x <= 8192) by (apply Rabs_le; lra).
  lra.
Qed.

Lemma rnd32_near x :
  - 8 <= x <= 8 ->
  x - 48 / 100000000 <= rnd32 x <= x + 48 / 100000000.
Proof.
  intros Hx. destruct Hacc as (_ & H32 & _).
  pose proof (Rabs_between _ _ (H32 x)) as Hb.
  assert (Rabs x <= 8) by (apply Rabs_le; lra).
  lra.
Qed.


Lemma libm_sinf_near x :
  sin x - / 1000000 <= libm_sinf x <= sin x + / 1000000.
Proof.
  destruct Hacc as (_ & _ & _ & Hs).
  pose proof (Rabs_between _ _ (Hs x)). lra.
Qed.

Lemma PI_3_4 : 3 < PI <= 4.
Proof. pose proof PI2_3_2. pose proof PI_4. lra. Qed.

Lemma PI_d_near : PI - / 1000000000000 <= PI_d <= PI + / 1000000000000.
Proof. pose proof PI_3_4. apply rnd64_near. lra. Qed.

(** The sine changes no faster than its argument. *)
Lemma sin_abs_le x : - Rabs x <= sin x <= Rabs x.
Proof.
  assert (pos : forall y, 0 < y -> - y <= sin y <= y).
  { intros y Hy. split; [|left; apply sin_lt_x, Hy].
    destruct (Rle_dec 1 y) as [H1|H1].
    - pose proof (SIN_bound y). lra.
    - pose proof PI_3_4. left.
      apply Rlt_trans with 0; [lra | apply sin_gt_0; lra]. }
  destruct (Rtotal_order x 0) as [Hneg | [-> | Hpos]].
  - rewrite Rabs_left by lra.
    pose proof (pos (- x) ltac:(lra)) as Hp. rewrite sin_neg in Hp. lra.
  - rewrite sin_0, Rabs_R0. lra.
  - rewrite Rabs_right by lra. apply pos, Hpos.
Qed.

Lemma sin_near a b e :
  b - e <= a <= b + e -> sin b - e <= sin a <= sin b + e.
Proof.
  intros H. rewrite <- (Rplus_0_r (sin b)) at 1.
  assert (D : sin a - sin b = 2 * cos ((a + b) / 2) * sin ((a - b) / 2))
    by apply form4.
  pose proof (COS_bound ((a + b) / 2)) as [C1 C2].
  pose proof (sin_abs_le ((a - b) / 2)) as [S1 S2].
  assert (Rabs ((a - b) / 2) <= e / 2) by (apply Rabs_le; lra).
  assert (- (e / 2) <= sin ((a - b) / 2) <= e / 2) by lra.
  assert (0 <= e) by lra.
  assert (- e <= 2 * cos ((a + b) / 2) * sin ((a - b) / 2) <= e) by nra.
  lra.
Qed.

(** The angle the code computes is within 4.9 10^-7 of the exact angle. *)
Lemma timeRad_near t :
  spec_theta t - 49 / 100000000 <= timeRad t <= spec_theta t + 49 / 100000000
  /\ 0 <= spec_theta t <= 8.
Proof.
  unfold timeRad, spec_theta.
  pose proof (Z.mod_pos_bound t 1000 ltac:(lia)) as [Hn0 Hn1].
  set (n := (t mod 1000)%Z) in *.
  assert (N0 : 0 <= IZR n) by (apply IZR_le in Hn0; exact Hn0).
  assert (N1 : IZR n <= 999) by (apply IZR_le; lia).
  pose proof PI_3_4 as [P3 P4]. pose proof PI_d_near as [Pd1 Pd2].
  replace (IZR n * 2) with (IZR (n * 2)) by (rewrite mult_IZR; reflexivity).
  rewrite (rnd64_int (n * 2)) by lia. rewrite mult_IZR.
  set (N := IZR n) in *.
  assert (X2 : N * 2 * PI - 2 / 1000000000 <= N * 2 * PI_d
               <= N * 2 * PI + 2 / 1000000000) by nra.
  assert (B2 : - 8192 <= N * 2 * PI_d <= 8192) by nra.
  pose proof (rnd64_near _ B2) as [A2l A2h].
  set (a2 := rnd64 (N * 2 * PI_d)) in *.
  assert (B3 : - 8192 <= a2 / 1000 <= 8192) by nra.
  pose proof (rnd64_near _ B3) as [A3l A3h].
  set (a3 := rnd64 (a2 / 1000)) in *.
  assert (T0 : 0 <= N / 1000 * 2 * PI <= 7992 / 1000) by nra.
  assert (B4 : - 8 <= a3 <= 8) by lra.
  pose proof (rnd32_near _ B4) as [A4l A4h].
  split; lra.
Qed.

(** The level the code computes from a sine close to an exact sine is
    close to the exact level. *)
Lemma strobeLevel_near s exact (intensity : Z) :
  (0 <= intensity <= 255)%Z ->
  -1 <= s <= 1 ->
  sin exact - 15 / 10000000 <= s <= sin exact + 15 / 10000000 ->
  (sin exact + 1) / 2 * IZR intensity - / 1000
  <= strobeLevel s intensity
  <= (sin exact + 1) / 2 * IZR intensity + / 1000.
Proof.
  intros [Hi0 Hi1] [Lr1 Lr2] [Ls1 Ls2]. unfold strobeLevel.
  apply IZR_le in Hi0, Hi1. simpl in Hi0. set (I := IZR intensity) in *.
  pose proof (SIN_bound exact) as [Se1 Se2].
  assert (B1 : - 8192 <= s + 1 <= 8192) by lra.
  pose proof (rnd64_near _ B1) as [A1l A1h].
  pose proof (rnd64_between 0 2 (s + 1) ltac:(simpl; lia) ltac:(simpl; lia)
                ltac:(lra)) as [R1l R1h].
  set (l1 := rnd64 (s + 1)) in *.
  assert (B2 : - 8192 <= l1 * I <= 8192) by nra.
  pose proof (rnd64_near _ B2) as [A2l A2h].
  set (l2 := rnd64 (l1 * I)) in *.
  assert (B3 : - 8192 <= l2 / 2 <= 8192) by nra.
  pose proof (rnd64_near _ B3) as [A3l A3h].
  set (l3 := rnd64 (l2 / 2)) in *.
  assert (E1 : (sin exact + 1) * I - 408 / 1000000 <= l1 * I
               <= (sin exact + 1) * I + 408 / 1000000) by nra.
  lra.
Qed.





(** The value written for a sine close to an exact sine is the integer
    part of a level within 1/1000 of the exact level. *)
Lemma level_truncates_near s exact (intensity : Z) :
  (0 <= intensity <= 255)%Z ->
  -1 <= s <= 1 ->
  sin exact - 15 / 10000000 <= s <= sin exact + 15 / 10000000 ->
  truncates_near ((sin exact + 1) / 2 * IZR intensity)
    (double_to_int (strobeLevel s intensity)).
Proof.
  intros Hi Hr Hs. unfold truncates_near.
  pose proof (strobeLevel_near s exact intensity Hi Hr Hs) as [N1 N2].
  pose proof (strobeLevel_bounds s intensity Hr Hi) as [B0 _].
  pose proof (double_to_int_nonneg _ B0) as [F1 F2]. lra.
Qed.


Lemma libm_sinf_of_near angle exact :
  exact - 5 / 10000000 <= angle <= exact + 5 / 10000000 ->
  sin exact - 15 / 10000000 <= libm_sinf angle <= sin exact + 15 / 10000000.
Proof.
  intros Hang. pose proof (sin_near _ _ _ Hang).
  pose proof (libm_sinf_near angle). lra.
Qed.

Lemma phase1_near intensity t :
  (0 <= intensity <= 255)%Z ->
  truncates_near (spec_channel_level 0 intensity t) (phase1 intensity t).
Proof.
  intros Hi. unfold spec_channel_level, phase1.
  apply level_truncates_near; [exact Hi | apply libm_sinf_range |].
  apply libm_sinf_of_near.
  pose proof (timeRad_near t) as [[T1 T2] _]. lra.
Qed.




End Accuracy.
Section ShapingClaims.

Lemma setLEDStrobes_writes intensity inp m :
  writes (exec (setLEDStrobes intensity) inp m)
  = writes m ++
    [LedcWrite 0 (phase1 intensity (next_millis inp m));
     LedcWrite 1 (phase2 intensity (next_millis inp m));
     LedcWrite 2 (phase3 intensity (next_millis inp m));
     LedcWrite 3 (phase4 intensity (next_millis inp m))].
Proof.
  unfold setLEDStrobes, exec, bind, millis, emit, next_millis. simpl.
  rewrite <- !app_assoc. reflexivity.
Qed.

Lemma setAudioDeterrent_off_writes inp m :
  writes (exec (setAudioDeterrent false) inp m)
  = writes m ++ [DigitalWrite AUDIO_ENABLE false; LedcWriteTone 4 0].
Proof.
  unfold setAudioDeterrent, exec, bind, emit. simpl.
  rewrite <- !app_assoc. reflexivity.
Qed.

Lemma setAudioDeterrent_on_writes inp m :
  writes (exec (setAudioDeterrent true) inp m)
  = writes m ++ [DigitalWrite AUDIO_ENABLE true;
                 LedcWriteTone 4 (toneFrequency (next_millis inp m))].
Proof.
  unfold setAudioDeterrent, exec, bind, emit, millis, next_millis. simpl.
  rewrite <- !app_assoc. reflexivity.
Qed.

(** C6. [controlDeterrents] drives the strobes with base intensity 0 in
    standby, 50 in alert, 255 in the active state and 0 in emergency, and
    enables the audio in the active state only; in standby (and in
    emergency) the four strobe channels are written 0, the audio enable pin
    is written low and the tone is written 0, whatever the clock reads. *)
Theorem deterrent_levels :
  forall inp m,
    writes (exec controlDeterrents inp (in_state STATE_STANDBY m))
    = writes (exec (setLEDStrobes 0 ;; setAudioDeterrent false) inp m) /\
    writes (exec controlDeterrents inp (in_state STATE_ALERT m))
    = writes (exec (setLEDStrobes 50 ;; setAudioDeterrent false) inp m) /\
    writes (exec controlDeterrents inp (in_state STATE_ACTIVE m))
    = writes (exec (setLEDStrobes 255 ;; setAudioDeterrent true) inp m) /\
    writes (exec controlDeterrents inp (in_state STATE_EMERGENCY m))
    = writes (exec (setLEDStrobes 0 ;; setAudioDeterrent false) inp m) /\
    writes (exec (setLEDStrobes 0 ;; setAudioDeterrent false) inp m)
    = writes m ++
      [LedcWrite 0 0; LedcWrite 1 0; LedcWrite 2 0; LedcWrite 3 0;
       DigitalWrite AUDIO_ENABLE false; LedcWriteTone 4 0] /\
    writes (exec (setLEDStrobes 50 ;; setAudioDeterrent false) inp m)
    = writes m ++
      [LedcWrite 0 (phase1 50 (next_millis inp m));
       LedcWrite 1 (phase2 50 (next_millis inp m));
       LedcWrite 2 (phase3 50 (next_millis inp m));
       LedcWrite 3 (phase4 50 (next_millis inp m));
       DigitalWrite AUDIO_ENABLE false; LedcWriteTone 4 0] /\
    writes (exec (setLEDStrobes 255 ;; setAudioDeterrent true) inp m)
    = writes m ++
      [LedcWrite 0 (phase1 255 (next_millis inp m));
       LedcWrite 1 (phase2 255 (next_millis inp m));
       LedcWrite 2 (phase3 255 (next_millis inp m));
       LedcWrite 3 (phase4 255 (next_millis inp m));
       DigitalWrite AUDIO_ENABLE true;
       LedcWriteTone 4 (toneFrequency (wrap32 (clock inp (S (clock_reads m)))))].
Proof.
  intros inp m.
  split; [reflexivity|].
  split; [reflexivity|].
  split.
  { unfold controlDeterrents, exec, bind, get. simpl.
    destruct (_ >? _); reflexivity. }
  split; [reflexivity|].
  split.
  { rewrite exec_seq, setAudioDeterrent_off_writes, setLEDStrobes_writes.
    unfold phase2, phase3, phase4.
    rewrite phase1_zero, !strobePhase_zero.
    rewrite <- !app_assoc. reflexivity. }
  split.
  { rewrite exec_seq, setAudioDeterrent_off_writes, setLEDStrobes_writes.
    rewrite <- !app_assoc. reflexivity. }
  rewrite exec_seq, setAudioDeterrent_on_writes, setLEDStrobes_writes.
  rewrite <- !app_assoc. reflexivity.
Qed.





(** Away from a tie: at clock reading 125 the level of channel 0 is
    127.5 * (1 + 1/sqrt 2), about 217.66; accurate arithmetic writes 217,
    the nearest integer is 218. *)
Lemma spec_level_at_125 :
  (217.6 < spec_channel_level 0 255 125 < 217.8)%R.
Proof.
  unfold spec_channel_level, spec_theta. change (125 mod 1000) with 125.
  replace (125 / 1000 * 2 * PI + 0 * PI / 2)%R with (PI / 4)%R by field.
  rewrite sin_PI4.
  assert (Hs : (0 < sqrt 2)%R) by (apply sqrt_lt_R0; lra).
  assert (Hq : (sqrt 2 * sqrt 2 = 2)%R) by (apply sqrt_sqrt; lra).
  assert (H1 : (1.414 < sqrt 2)%R) by nra.
  assert (H2 : (sqrt 2 < 1.415)%R) by nra.
  assert (Hinv : (1 / sqrt 2 = sqrt 2 / 2)%R).
  { field_simplify_eq; lra. }
  rewrite Hinv. lra.
Qed.

Lemma strobe_truncates_off_tie :
  accurate fm -> phase1 255 125 = 217 /\ spec_strobe 0 255 125 = 218.
Proof.
  intros Hacc. pose proof spec_level_at_125 as [Hlo Hhi].
  split.
  - pose proof (phase1_near Hacc 255 125 ltac:(lia)) as [N1 N2].
    assert (L : 216 < phase1 255 125).
    { apply lt_IZR. lra. }
    assert (U : phase1 255 125 < 218).
    { apply lt_IZR. lra. }
    lia.
  - unfold spec_strobe, spec_round. symmetry. apply Int_part_spec. simpl. lra.
Qed.

End ShapingClaims.

(** * Further properties of the code *)

(** ** Scoring table *)

Section ScorerExtras.
Import Scorer ScorerFacts.

(** X1.  For every [int] confidence the score stays within the range of [int]:
    the additions of [assessThreatLevel] never overflow. *)
Theorem score_never_overflows :
  forall b, in_int (confidence b) ->
    in_int (Z.quot (confidence b) 10) /\
    in_int (distanceFactor (distance b) + Z.quot (confidence b) 10) /\
    in_int (threatScore b).
Proof.
  intros b Hc.
  pose proof (threatScore_in_int b Hc) as Hs.
  pose proof (distanceFactor_range (distance b)) as Hd.
  unfold in_int, int_min, int_max in *.
  assert (Hq : - 214748364 <= confidence b ÷ 10 <= 214748364).
  { split.
    - change (-214748364) with ((- 2 ^ 31) ÷ 10). apply Z.quot_le_mono; lia.
    - change 214748364 with ((2 ^ 31 - 1) ÷ 10). apply Z.quot_le_mono; lia. }
  repeat split; try lia; exact (proj1 Hs) || exact (proj2 Hs).
Qed.

Lemma score_never_overflows_witness :
  in_int (threatScore (mkBird true int_max (float_of_int 10) S754_nan 1 0)).
Proof.
  apply (score_never_overflows (mkBird true int_max (float_of_int 10) S754_nan 1 0)).
  unfold in_int, int_min, int_max. simpl. lia.
Defined.

(** X2.  A detected bird nearer than 50 is assessed medium or high whatever its
    species, as soon as its confidence is not below -9. *)
Theorem close_bird_is_at_least_medium :
  forall inp m b,
    detected b = true ->
    SFltb (distance b) f50 = true ->
    -9 <= confidence b ->
    assessed inp (holding b m) = THREAT_MEDIUM \/
    assessed inp (holding b m) = THREAT_HIGH.
Proof.
  intros inp m b Hdet Hnear Hconf.
  rewrite assessed_assess. simpl. unfold assess. rewrite Hdet. simpl.
  assert (Hs : 30 <= threatScore b).
  { unfold threatScore, distanceFactor, confidenceFactor. rewrite Hnear.
    pose proof (speciesFactor_range (species b)).
    assert (0 <= confidence b ÷ 10).
    { destruct (Z_le_gt_dec 0 (confidence b)).
      - apply Z.quot_pos; lia.
      - replace (confidence b) with (- - confidence b) by lia.
        rewrite Z.quot_opp_l by lia. rewrite Z.quot_small; lia. }
    lia. }
  unfold levelOfScore.
  destruct (Z.geb_spec (threatScore b) 50); [right; reflexivity|].
  destruct (Z.geb_spec (threatScore b) 30); [left; reflexivity | lia].
Qed.

Lemma close_bird_witness :
  assessed (quiet 0)
    (holding (mkBird true 0 (float_of_int 49) (S754_zero false) 0 0)
       (start initial_globals)) = THREAT_MEDIUM \/
  assessed (quiet 0)
    (holding (mkBird true 0 (float_of_int 49) (S754_zero false) 0 0)
       (start initial_globals)) = THREAT_HIGH.
Proof.
  apply close_bird_is_at_least_medium; simpl; try reflexivity; lia.
Defined.

(** X3.  With a confidence of at most 100, a detection is assessed high only if
    its species code is 1, 2 or 3 and its distance is below 200. *)
Theorem high_needs_listed_species_and_range :
  forall inp m b,
    confidence b <= 100 ->
    assessed inp (holding b m) = THREAT_HIGH ->
    (species b = 1 \/ species b = 2 \/ species b = 3) /\
    SFltb (distance b) f200 = true.
Proof.
  intros inp m b Hconf. rewrite assessed_assess. simpl. unfold assess.
  destruct (detected b); simpl; [|discriminate].
  unfold levelOfScore.
  destruct (Z.geb_spec (threatScore b) 50) as [Hs|Hs];
    [|destruct (_ >=? 30); [|destruct (_ >=? 15)]; discriminate].
  intros _.
  assert (Hq : confidence b ÷ 10 <= 10).
  { change 10 with (100 ÷ 10) at 2. apply Z.quot_le_mono; lia. }
  pose proof (distanceFactor_range (distance b)) as Hd.
  pose proof (speciesFactor_range (species b)) as Hp.
  unfold threatScore, confidenceFactor in Hs. split.
  - unfold speciesFactor in *.
    destruct (Z.eqb_spec (species b) 1); [auto|].
    destruct (Z.eqb_spec (species b) 2); [auto|].
    destruct (Z.eqb_spec (species b) 3); [auto|]. lia.
  - unfold distanceFactor in *.
    destruct (SFltb (distance b) f50) eqn:E50.
    { apply (SFle_lt_trans _ f50 f200).
      - unfold SFleb. unfold SFltb in E50.
        destruct (SFcompare (distance b) f50) as [[ | | ]|]; try discriminate.
        reflexivity.
      - reflexivity. }
    destruct (SFltb (distance b) f100) eqn:E100.
    { apply (SFle_lt_trans _ f100 f200).
      - unfold SFleb. unfold SFltb in E100.
        destruct (SFcompare (distance b) f100) as [[ | | ]|]; try discriminate.
        reflexivity.
      - reflexivity. }
    destruct (SFltb (distance b) f200); [reflexivity | lia].
Qed.

Lemma high_needs_listed_species_witness :
  (species eagle_close = 1 \/ species eagle_close = 2 \/ species eagle_close = 3) /\
  SFltb (distance eagle_close) f200 = true.
Proof.
  apply (high_needs_listed_species_and_range (quiet 0) (start initial_globals)
           eagle_close).
  - simpl. lia.
  - reflexivity.
Defined.

(** X4.  The confidence is not checked against 100: a detected bird reported
    with a confidence of 500 or more is assessed high at any distance and
    for any species. *)
Theorem oversized_confidence_is_high :
  forall inp m b,
    detected b = true ->
    500 <= confidence b ->
    assessed inp (holding b m) = THREAT_HIGH.
Proof.
  intros inp m b Hdet Hconf.
  rewrite assessed_assess. simpl. unfold assess. rewrite Hdet. simpl.
  assert (Hq : 50 <= confidence b ÷ 10).
  { change 50 with (500 ÷ 10). apply Z.quot_le_mono; lia. }
  pose proof (distanceFactor_range (distance b)) as Hd.
  pose proof (speciesFactor_range (species b)) as Hp.
  unfold levelOfScore.
  destruct (Z.geb_spec (threatScore b) 50) as [Hs|Hs]; [reflexivity|].
  unfold threatScore, confidenceFactor in Hs. lia.
Qed.

Lemma oversized_confidence_witness :
  assessed (quiet 0)
    (holding (mkBird true 500 (float_of_int 1000) (S754_zero false) 0 0)
       (start initial_globals)) = THREAT_HIGH.
Proof.
  apply oversized_confidence_is_high; simpl; [reflexivity | lia].
Defined.

(** X5.  The distance is not checked either.  A NaN distance compares false with
    every bound and earns no points, so the bird is assessed as one at 200
    or beyond; a negative distance, minus infinity included, earns the 30
    points of the nearest band. *)
Theorem unchecked_distance :
  (forall inp m b d,
      SFleb f200 d = true ->
      assessed inp (holding (with_distance S754_nan b) m)
      = assessed inp (holding (with_distance d b) m)) /\
  (forall mant e, distanceFactor (S754_finite true mant e) = 30) /\
  distanceFactor (S754_infinity true) = 30.
Proof.
  split; [|split; reflexivity].
  intros inp m b d Hfar. rewrite !assessed_assess. simpl. unfold assess. simpl.
  unfold threatScore. simpl. rewrite (distanceFactor_far d Hfar).
  reflexivity.
Qed.

Lemma unchecked_distance_witness :
  assessed (quiet 0)
    (holding (with_distance S754_nan eagle_close) (start initial_globals))
  = assessed (quiet 0)
      (holding (with_distance (float_of_int 300) eagle_close)
         (start initial_globals)).
Proof.
  apply (proj1 unchecked_distance). reflexivity.
Defined.

End ScorerExtras.

(** ** What each step of the loop does to the machine *)

Lemma checkEmergencyStop_exec inp m :
  exec checkEmergencyStop inp m
  = mkMachine
      (match emergency_pin inp with
       | LOW => set_currentState STATE_EMERGENCY
                  (set_emergencyStop true (globals m))
       | HIGH => globals m
       end) (clock_reads m) (writes m) (serial_log m).
Proof.
  unfold checkEmergencyStop, exec, bind, digitalRead_EMERGENCY_STOP. simpl.
  destruct (emergency_pin inp); [reflexivity|]. destruct m; reflexivity.
Qed.

Lemma sensorGate_writes inp m : writes (exec sensorGate inp m) = writes m.
Proof.
  unfold sensorGate, exec, bind, millis, get. simpl.
  destruct (_ >=? _); reflexivity.
Qed.

Lemma checkBirdDetection_decoded inp m line :
  rpi_rx inp = Some line -> rx_error line = JsonOk ->
  exec checkBirdDetection inp m
  = mkMachine
      (set_currentThreat
         (Scorer.assess (bird_of_doc (rx_doc line) (next_millis inp m)))
         (set_birdData (bird_of_doc (rx_doc line) (next_millis inp m))
            (globals m)))
      (S (clock_reads m)) (writes m) (serial_log m).
Proof.
  intros Hrx Herr.
  unfold checkBirdDetection, exec, bind, rpiSerial_read. simpl.
  rewrite Hrx, Herr. unfold millis, modify, assessThreatLevel, bind, get.
  simpl. unfold Scorer.assess, bird_of_doc, next_millis. simpl.
  destruct (doc_detected (rx_doc line)); reflexivity.
Qed.

Lemma checkBirdDetection_idle inp m :
  no_detection inp -> exec checkBirdDetection inp m = m.
Proof.
  unfold no_detection. intros H.
  unfold checkBirdDetection, exec, bind, rpiSerial_read. simpl.
  destruct (rpi_rx inp) as [line|]; [|reflexivity].
  destruct (rx_error line); try reflexivity. contradiction H. reflexivity.
Qed.

Lemma checkBirdDetection_frame inp m :
  currentState (globals (exec checkBirdDetection inp m)) = currentState (globals m) /\
  emergencyStop (globals (exec checkBirdDetection inp m)) = emergencyStop (globals m) /\
  deterrentActivationTime (globals (exec checkBirdDetection inp m))
  = deterrentActivationTime (globals m) /\
  writes (exec checkBirdDetection inp m) = writes m.
Proof.
  destruct (rpi_rx inp) as [line|] eqn:Hrx.
  - destruct (rx_error line) eqn:Herr;
      try (rewrite checkBirdDetection_idle;
           [repeat split | unfold no_detection; rewrite Hrx, Herr; discriminate]).
    rewrite (checkBirdDetection_decoded inp m line Hrx Herr). repeat split.
  - rewrite checkBirdDetection_idle; [repeat split|].
    unfold no_detection. rewrite Hrx. exact I.
Qed.

Lemma updateSystemState_exec inp m :
  exec updateSystemState inp m
  = if emergencyStop (globals m) then
      mkMachine (set_currentState STATE_EMERGENCY (globals m))
        (clock_reads m) (writes m) (serial_log m)
    else
      match currentThreat (globals m) with
      | THREAT_NONE =>
          mkMachine (set_currentState STATE_STANDBY (globals m))
            (clock_reads m) (writes m) (serial_log m)
      | THREAT_LOW =>
          mkMachine (set_currentState STATE_ALERT (globals m))
            (clock_reads m) (writes m) (serial_log m)
      | _ =>
          mkMachine
            (set_deterrentActivationTime (next_millis inp m)
               (set_currentState STATE_ACTIVE (globals m)))
            (S (clock_reads m)) (writes m) (serial_log m)
      end.
Proof.
  unfold updateSystemState, exec, bind, get. simpl.
  destruct (emergencyStop (globals m)); [reflexivity|].
  destruct (currentThreat (globals m)); reflexivity.
Qed.

Lemma updateSystemState_state inp m :
  currentState (globals (exec updateSystemState inp m))
  = if emergencyStop (globals m) then STATE_EMERGENCY
    else state_for (currentThreat (globals m)).
Proof.
  rewrite updateSystemState_exec.
  destruct (emergencyStop (globals m)); [reflexivity|].
  destruct (currentThreat (globals m)); reflexivity.
Qed.

Lemma updateSystemState_frame inp m :
  currentThreat (globals (exec updateSystemState inp m)) = currentThreat (globals m) /\
  birdData (globals (exec updateSystemState inp m)) = birdData (globals m) /\
  writes (exec updateSystemState inp m) = writes m.
Proof.
  rewrite updateSystemState_exec.
  destruct (emergencyStop (globals m)); [repeat split|].
  destruct (currentThreat (globals m)) eqn:E; simpl; rewrite ?E; repeat split.
Qed.

(** The reading [controlDeterrents] compares with the activation stamp: the
    third it takes in the active state. *)
Lemma controlDeterrents_globals inp m :
  globals (exec controlDeterrents inp m)
  = match currentState (globals m) with
    | STATE_ACTIVE =>
        if sub32 (wrap32 (clock inp (S (S (clock_reads m)))))
             (deterrentActivationTime (globals m)) >? 60000
        then set_currentState STATE_ALERT (globals m)
        else globals m
    | _ => globals m
    end.
Proof.
  unfold controlDeterrents, exec, bind, get. simpl.
  destruct (currentState (globals m)); try reflexivity.
  simpl. destruct (_ >? _); reflexivity.
Qed.

Lemma controlDeterrents_frame inp m :
  currentThreat (globals (exec controlDeterrents inp m)) = currentThreat (globals m) /\
  birdData (globals (exec controlDeterrents inp m)) = birdData (globals m) /\
  deterrentActivationTime (globals (exec controlDeterrents inp m))
  = deterrentActivationTime (globals m).
Proof.
  rewrite controlDeterrents_globals.
  destruct (currentState (globals m)) eqn:E; try (repeat split).
  all: destruct (_ >? _); reflexivity.
Qed.

(** The decision fields at the end of an iteration are those
    [controlDeterrents] leaves. *)
Lemma tick_control inp g :
  control (tick inp g)
  = control (globals (exec controlDeterrents inp (decided inp g))).
Proof.
  unfold tick, loop, decided, polled. do 5 rewrite exec_seq.
  apply loop_tail_control.
Qed.

Lemma polled_flag inp g :
  emergencyStop (globals (polled inp g))
  = match emergency_pin inp with LOW => true | HIGH => emergencyStop g end.
Proof.
  unfold polled.
  destruct (checkBirdDetection_frame inp
              (exec sensorGate inp (exec checkEmergencyStop inp (start g))))
    as (_ & -> & _).
  pose proof (sensorGate_control inp (exec checkEmergencyStop inp (start g))) as C.
  unfold control in C. injection C as _ _ _ -> _.
  rewrite checkEmergencyStop_exec. destruct (emergency_pin inp); reflexivity.
Qed.

Lemma polled_writes inp g : writes (polled inp g) = [].
Proof.
  unfold polled.
  destruct (checkBirdDetection_frame inp
              (exec sensorGate inp (exec checkEmergencyStop inp (start g))))
    as (_ & _ & _ & ->).
  rewrite sensorGate_writes, checkEmergencyStop_exec. reflexivity.
Qed.

(** The threat and the detection held once the link has been polled. *)
Lemma polled_idle inp g :
  no_detection inp ->
  currentThreat (globals (polled inp g)) = currentThreat g /\
  birdData (globals (polled inp g)) = birdData g.
Proof.
  intros H. unfold polled. rewrite (checkBirdDetection_idle _ _ H).
  pose proof (sensorGate_control inp (exec checkEmergencyStop inp (start g))) as C.
  unfold control in C. injection C as _ -> _ _ ->.
  rewrite checkEmergencyStop_exec. destruct (emergency_pin inp); split; reflexivity.
Qed.

Lemma polled_decoded inp g line :
  rpi_rx inp = Some line -> rx_error line = JsonOk ->
  exists k,
    birdData (globals (polled inp g)) = bird_of_doc (rx_doc line) (wrap32 (clock inp k)) /\
    currentThreat (globals (polled inp g))
    = Scorer.assess (bird_of_doc (rx_doc line) (wrap32 (clock inp k))).
Proof.
  intros Hrx Herr. unfold polled.
  rewrite (checkBirdDetection_decoded _ _ line Hrx Herr).
  eexists. split; reflexivity.
Qed.

Lemma tick_threat inp g :
  currentThreat (tick inp g) = currentThreat (globals (polled inp g)) /\
  birdData (tick inp g) = birdData (globals (polled inp g)) /\
  emergencyStop (tick inp g) = emergencyStop (globals (polled inp g)).
Proof.
  pose proof (tick_control inp g) as C. unfold control in C.
  injection C as _ Ct _ Cf Cb. rewrite Ct, Cb, Cf.
  destruct (controlDeterrents_frame inp (decided inp g)) as (-> & -> & _).
  rewrite controlDeterrents_flag. unfold decided.
  destruct (updateSystemState_frame inp (polled inp g)) as (-> & -> & _).
  rewrite updateSystemState_flag. repeat split.
Qed.

(** ** Whole iterations *)

Lemma tick_state inp g :
  currentState (tick inp g)
  = currentState (globals (exec controlDeterrents inp (decided inp g))).
Proof.
  pose proof (tick_control inp g) as C. unfold control in C.
  injection C as Cs _ _ _ _. exact Cs.
Qed.

Lemma decided_state inp g :
  currentState (globals (decided inp g))
  = if emergencyStop (globals (polled inp g)) then STATE_EMERGENCY
    else state_for (currentThreat (globals (polled inp g))).
Proof. unfold decided. apply updateSystemState_state. Qed.

Lemma controlDeterrents_state inp m :
  currentState (globals (exec controlDeterrents inp m))
  = match currentState (globals m) with
    | STATE_ACTIVE =>
        if sub32 (wrap32 (clock inp (S (S (clock_reads m)))))
             (deterrentActivationTime (globals m)) >? 60000
        then STATE_ALERT else STATE_ACTIVE
    | s => s
    end.
Proof.
  rewrite controlDeterrents_globals.
  destruct (currentState (globals m)) eqn:E; try exact E.
  destruct (_ >? _); [reflexivity | exact E].
Qed.

(** X6.  An iteration ends in the emergency state exactly when it sampled the
    pin low or started with the emergency flag set, and exactly then the
    flag is set at its end: no threat level, no timeout and no stored state
    leads there. *)
Theorem emergency_only_by_stop :
  forall inp g,
    (currentState (tick inp g) = STATE_EMERGENCY <->
     emergency_pin inp = LOW \/ emergencyStop g = true) /\
    (emergencyStop (tick inp g) = true <->
     emergency_pin inp = LOW \/ emergencyStop g = true).
Proof.
  intros inp g.
  assert (Hflag : emergencyStop (globals (polled inp g)) = true <->
                  emergency_pin inp = LOW \/ emergencyStop g = true).
  { rewrite polled_flag. destruct (emergency_pin inp).
    - split; auto.
    - split; [auto | intros [H|H]; [discriminate | exact H]]. }
  split.
  - rewrite <- Hflag, tick_state, controlDeterrents_state, decided_state.
    destruct (emergencyStop (globals (polled inp g))).
    + split; reflexivity.
    + destruct (currentThreat (globals (polled inp g))); simpl;
        try destruct (_ >? _); simpl; split; discriminate.
  - destruct (tick_threat inp g) as (_ & _ & ->). exact Hflag.
Qed.

Lemma tick_state_of_threat inp g :
  emergency_pin inp = HIGH ->
  emergencyStop g = false ->
  tame_clock inp ->
  currentState (tick inp g) = state_for (currentThreat (tick inp g)).
Proof.
  intros Hpin Hflag Hclk.
  destruct (tick_threat inp g) as (-> & _ & _).
  rewrite tick_state, controlDeterrents_state, decided_state.
  assert (Hf : emergencyStop (globals (polled inp g)) = false).
  { rewrite polled_flag, Hpin. exact Hflag. }
  rewrite Hf. unfold decided. rewrite updateSystemState_exec, Hf.
  destruct (currentThreat (globals (polled inp g))); simpl; try reflexivity.
  all: match goal with
       | |- context [?a >? 60000] => destruct (Z.gtb_spec a 60000) as [Hgt|Hle]
       end; [|reflexivity]; exfalso;
    unfold next_millis in Hgt;
    pose proof (Hclk (clock_reads (polled inp g))
                  (S (S (S (clock_reads (polled inp g))))) ltac:(lia)); lia.
Qed.

(** X7.  With the pin released, the flag clear and a clock that advances by at
    most 60000 ms within the iteration, the state at the end of an iteration
    is the one of the threat level held at its end, whatever the state was
    before: standby for none, alert for low, active for medium and high. *)
Theorem state_follows_threat :
  forall inp g,
    emergency_pin inp = HIGH ->
    emergencyStop g = false ->
    tame_clock inp ->
    currentState (tick inp g) = state_for (currentThreat (tick inp g)).
Proof. intros inp g. apply tick_state_of_threat. Qed.

(** X8.  What an iteration does to the held detection and threat level.  When
    nothing decodable arrives both are kept.  When a line decodes, the
    detection is replaced as a whole by the fields of the line, stamped
    with a clock reading of the iteration, and the threat level is the
    assessment of that new detection alone. *)
Theorem threat_after_iteration :
  forall inp g,
    (no_detection inp ->
     currentThreat (tick inp g) = currentThreat g /\
     birdData (tick inp g) = birdData g) /\
    (forall line, rpi_rx inp = Some line -> rx_error line = JsonOk ->
       exists k,
         birdData (tick inp g) = bird_of_doc (rx_doc line) (wrap32 (clock inp k)) /\
         currentThreat (tick inp g) = Scorer.assess (birdData (tick inp g))).
Proof.
  intros inp g. destruct (tick_threat inp g) as (Ht & Hb & _). split.
  - intros H. rewrite Ht, Hb. apply polled_idle, H.
  - intros line Hrx Herr.
    destruct (polled_decoded inp g line Hrx Herr) as (k & Hk1 & Hk2).
    exists k. rewrite Ht, Hb, Hk1, Hk2. split; reflexivity.
Qed.

(** X9.  The held threat level is always the assessment of the held detection:
    this holds of the initial globals and every iteration keeps it, so it
    holds after any sequence of iterations from start-up. *)
Theorem threat_always_assessed :
  threat_consistent initial_globals /\
  (forall inp g, threat_consistent g -> threat_consistent (tick inp g)) /\
  (forall inps, Forall threat_consistent (run inps initial_globals)).
Proof.
  assert (keep : forall inp g, threat_consistent g -> threat_consistent (tick inp g)).
  { intros inp g Hg. unfold threat_consistent.
    destruct (tick_threat inp g) as (-> & -> & _).
    assert (idle : no_detection inp ->
                   currentThreat (globals (polled inp g))
                   = Scorer.assess (birdData (globals (polled inp g)))).
    { intros H. destruct (polled_idle inp g H) as (-> & ->). exact Hg. }
    destruct (rpi_rx inp) as [line|] eqn:Hrx.
    - destruct (rx_error line) eqn:Herr;
        try (apply idle; unfold no_detection; rewrite Hrx, Herr; discriminate).
      destruct (polled_decoded inp g line Hrx Herr) as (k & -> & ->).
      reflexivity.
    - apply idle. unfold no_detection. rewrite Hrx. exact I. }
  split; [reflexivity|]. split; [exact keep|].
  intros inps. generalize initial_globals (eq_refl : threat_consistent initial_globals).
  induction inps as [|inp rest IH]; intros g Hg; simpl.
  - constructor.
  - constructor; [apply keep, Hg | apply IH, keep, Hg].
Qed.

Lemma polled_stamp inp g :
  deterrentActivationTime (globals (polled inp g)) = deterrentActivationTime g.
Proof.
  unfold polled.
  destruct (checkBirdDetection_frame inp
              (exec sensorGate inp (exec checkEmergencyStop inp (start g))))
    as (_ & _ & -> & _).
  pose proof (sensorGate_control inp (exec checkEmergencyStop inp (start g))) as C.
  unfold control in C. injection C as _ _ -> _ _.
  rewrite checkEmergencyStop_exec. destruct (emergency_pin inp); reflexivity.
Qed.

(** X10.  While nothing decodable arrives, the pin stays released and the clock
    is tame, a medium or high threat once held keeps every iteration ending
    in the active state: the state never times out of active on a silent
    link, however many iterations pass. *)
Theorem silent_link_keeps_active :
  forall inps g,
    emergencyStop g = false ->
    currentThreat g = THREAT_MEDIUM \/ currentThreat g = THREAT_HIGH ->
    Forall (fun inp => emergency_pin inp = HIGH /\ no_detection inp /\ tame_clock inp)
           inps ->
    Forall (fun g' => currentState g' = STATE_ACTIVE) (run inps g).
Proof.
  induction inps as [|inp rest IH]; intros g Hflag Hthreat Hall; simpl.
  - constructor.
  - inversion Hall as [|? ? (Hpin & Hidle & Hclk) Hrest]; subst.
    destruct (tick_threat inp g) as (Ht & _ & Hf).
    destruct (polled_idle inp g Hidle) as (Hpt & _).
    assert (Ht' : currentThreat (tick inp g) = currentThreat g) by congruence.
    assert (Hf' : emergencyStop (tick inp g) = false).
    { rewrite Hf, polled_flag, Hpin. exact Hflag. }
    constructor.
    + rewrite (tick_state_of_threat inp g Hpin Hflag Hclk), Ht'.
      destruct Hthreat as [-> | ->]; reflexivity.
    + apply IH; [exact Hf' | rewrite Ht'; exact Hthreat | exact Hrest].
Qed.

(** X11.  An iteration moves the activation stamp only when it ends with the
    emergency flag clear and a medium or high threat held, and then to a
    clock reading of that iteration; otherwise the stamp is kept. *)
Theorem stamp_moves_only_when_active :
  forall inp g,
    deterrentActivationTime (tick inp g) = deterrentActivationTime g \/
    (emergencyStop (tick inp g) = false /\
     (currentThreat (tick inp g) = THREAT_MEDIUM \/
      currentThreat (tick inp g) = THREAT_HIGH) /\
     exists k, deterrentActivationTime (tick inp g) = wrap32 (clock inp k)).
Proof.
  intros inp g.
  destruct (tick_threat inp g) as (-> & _ & ->).
  pose proof (tick_control inp g) as C. unfold control in C.
  injection C as _ _ -> _ _.
  destruct (controlDeterrents_frame inp (decided inp g)) as (_ & _ & ->).
  unfold decided. rewrite updateSystemState_exec.
  destruct (emergencyStop (globals (polled inp g))) eqn:Hf.
  { left. apply polled_stamp. }
  destruct (currentThreat (globals (polled inp g))) eqn:Ht; simpl.
  - left. apply polled_stamp.
  - left. apply polled_stamp.
  - right. repeat split; auto. eexists. reflexivity.
  - right. repeat split; auto. eexists. reflexivity.
Qed.

(** X12.  [controlDeterrents] changes the globals in one way only: entered in the
    active state it stores the alert state when more than 60000 ms, counted
    modulo 2^32, separate its clock reading from the activation stamp; at
    exactly 60000 ms it does not. *)
Theorem deterrent_timeout_boundary :
  forall inp m,
    (currentState (globals m) <> STATE_ACTIVE ->
     globals (exec controlDeterrents inp m) = globals m) /\
    (currentState (globals m) = STATE_ACTIVE ->
     sub32 (wrap32 (clock inp (S (S (clock_reads m)))))
           (deterrentActivationTime (globals m)) <= 60000 ->
     globals (exec controlDeterrents inp m) = globals m) /\
    (currentState (globals m) = STATE_ACTIVE ->
     60000 < sub32 (wrap32 (clock inp (S (S (clock_reads m)))))
                   (deterrentActivationTime (globals m)) ->
     globals (exec controlDeterrents inp m)
     = set_currentState STATE_ALERT (globals m)).
Proof.
  intros inp m. rewrite controlDeterrents_globals.
  split; [|split].
  - intros H. destruct (currentState (globals m)); try reflexivity.
    contradiction H. reflexivity.
  - intros -> H.
    destruct (Z.gtb_spec (sub32 (wrap32 (clock inp (S (S (clock_reads m)))))
                            (deterrentActivationTime (globals m))) 60000);
      [lia | reflexivity].
  - intros -> H.
    destruct (Z.gtb_spec (sub32 (wrap32 (clock inp (S (S (clock_reads m)))))
                            (deterrentActivationTime (globals m))) 60000);
      [reflexivity | lia].
Qed.

(** ** What an iteration writes *)

Lemma controlDeterrents_writes inp m :
  writes (exec controlDeterrents inp m)
  = writes m ++
    [LedcWrite 0 (phase1 (base_intensity (currentState (globals m))) (next_millis inp m));
     LedcWrite 1 (phase2 (base_intensity (currentState (globals m))) (next_millis inp m));
     LedcWrite 2 (phase3 (base_intensity (currentState (globals m))) (next_millis inp m));
     LedcWrite 3 (phase4 (base_intensity (currentState (globals m))) (next_millis inp m));
     DigitalWrite AUDIO_ENABLE
       (match currentState (globals m) with STATE_ACTIVE => true | _ => false end);
     LedcWriteTone 4
       (match currentState (globals m) with
        | STATE_ACTIVE => toneFrequency (wrap32 (clock inp (S (clock_reads m))))
        | _ => 0
        end)].
Proof.
  unfold controlDeterrents, setLEDStrobes, setAudioDeterrent, exec, bind, get,
    millis, emit, modify, ret, next_millis. simpl.
  destruct (currentState (globals m)); simpl.
  - rewrite <- !app_assoc. reflexivity.
  - rewrite <- !app_assoc. reflexivity.
  - destruct (sub32 _ _ >? 60000); simpl; rewrite <- !app_assoc; reflexivity.
  - rewrite <- !app_assoc. reflexivity.
Qed.

Lemma telemetryGate_writes inp m :
  writes (exec telemetryGate inp m)
  = writes m ++
    (if sub32 (next_millis inp m) (lastTelemetryTime (globals m)) >=? 1000
     then [LoRaPacket
             (mkTelemetry (wrap32 (clock inp (S (clock_reads m))))
                (state_ord (currentState (globals m)))
                (threat_ord (currentThreat (globals m)))
                (if detected (birdData (globals m))
                 then Some (confidence (birdData (globals m)),
                            distance (birdData (globals m)))
                 else None))]
     else []).
Proof.
  unfold telemetryGate, exec, bind, millis, get, next_millis. simpl.
  destruct (_ >=? _); simpl; [reflexivity | symmetry; apply app_nil_r].
Qed.

Lemma performHealthCheck_writes inp m :
  writes (exec performHealthCheck inp m) = writes m.
Proof.
  unfold performHealthCheck, exec, bind, millis, get. simpl.
  destruct (_ >=? _); reflexivity.
Qed.

(** The machine when [controlDeterrents] has run. *)
Lemma loop_writes inp g :
  exists pk,
    writes (exec loop inp (start g))
    = (writes (exec controlDeterrents inp (decided inp g)) ++ pk) ++ [Delay 50] /\
    (pk = [] \/
     exists now,
       pk = [LoRaPacket
               (mkTelemetry (wrap32 (clock inp now))
                  (state_ord (currentState (tick inp g)))
                  (threat_ord (currentThreat (tick inp g)))
                  (if detected (birdData (tick inp g))
                   then Some (confidence (birdData (tick inp g)),
                              distance (birdData (tick inp g)))
                   else None))]).
Proof.
  pose proof (tick_control inp g) as C. unfold control in C.
  injection C as Cs Ct _ _ Cb. rewrite Cs, Ct, Cb.
  unfold loop, decided, polled. do 8 rewrite exec_seq.
  set (m5 := exec controlDeterrents inp _).
  set (m6 := exec monitorPowerSystems inp m5).
  change (writes (exec (emit (Delay 50)) inp
                    (exec performHealthCheck inp (exec telemetryGate inp m6))))
    with (writes (exec performHealthCheck inp (exec telemetryGate inp m6))
          ++ [Delay 50]).
  rewrite performHealthCheck_writes, telemetryGate_writes.
  change (writes m6) with (writes m5). change (globals m6) with (globals m5).
  eexists. split; [reflexivity|].
  destruct (_ >=? _); [right; eexists; reflexivity | left; reflexivity].
Qed.

Lemma decided_writes inp g : writes (decided inp g) = [].
Proof.
  unfold decided.
  destruct (updateSystemState_frame inp (polled inp g)) as (_ & _ & ->).
  apply polled_writes.
Qed.

(** The state [controlDeterrents] finds, in terms of what the iteration
    ends with. *)
Lemma decided_state_tick inp g :
  currentState (globals (decided inp g))
  = if emergencyStop (tick inp g) then STATE_EMERGENCY
    else state_for (currentThreat (tick inp g)).
Proof.
  destruct (tick_threat inp g) as (-> & _ & ->). apply decided_state.
Qed.

(** The console and the battery voltage held: only [monitorPowerSystems]
    prints, and only the sensor gate stores a voltage. *)
Lemma checkEmergencyStop_power inp m :
  serial_log (exec checkEmergencyStop inp m) = serial_log m /\
  sensors_batteryVoltage (globals (exec checkEmergencyStop inp m))
  = sensors_batteryVoltage (globals m) /\
  lastSensorUpdate (globals (exec checkEmergencyStop inp m))
  = lastSensorUpdate (globals m) /\
  clock_reads (exec checkEmergencyStop inp m) = clock_reads m.
Proof.
  rewrite checkEmergencyStop_exec.
  destruct (emergency_pin inp); repeat split; reflexivity.
Qed.

Lemma sensorGate_power inp m :
  serial_log (exec sensorGate inp m) = serial_log m /\
  sensors_batteryVoltage (globals (exec sensorGate inp m))
  = if sub32 (next_millis inp m) (lastSensorUpdate (globals m)) >=? 100
    then batteryVoltageOf (adc_A0 inp)
    else sensors_batteryVoltage (globals m).
Proof.
  unfold sensorGate, exec, bind, millis, get, next_millis. simpl.
  destruct (_ >=? _); split; reflexivity.
Qed.

Lemma checkBirdDetection_power inp m :
  serial_log (exec checkBirdDetection inp m) = serial_log m /\
  sensors_batteryVoltage (globals (exec checkBirdDetection inp m))
  = sensors_batteryVoltage (globals m).
Proof.
  unfold checkBirdDetection, assessThreatLevel, exec, bind, rpiSerial_read,
    millis, modify, get, ret. simpl.
  destruct (rpi_rx inp) as [line|]; [|split; reflexivity].
  destruct (rx_error line); simpl; try (split; reflexivity).
  destruct (doc_detected (rx_doc line)); split; reflexivity.
Qed.

Lemma updateSystemState_power inp m :
  serial_log (exec updateSystemState inp m) = serial_log m /\
  sensors_batteryVoltage (globals (exec updateSystemState inp m))
  = sensors_batteryVoltage (globals m).
Proof.
  rewrite updateSystemState_exec.
  destruct (emergencyStop (globals m)); [split; reflexivity|].
  destruct (currentThreat (globals m)); split; reflexivity.
Qed.

Lemma controlDeterrents_power inp m :
  serial_log (exec controlDeterrents inp m) = serial_log m /\
  sensors_batteryVoltage (globals (exec controlDeterrents inp m))
  = sensors_batteryVoltage (globals m).
Proof.
  unfold controlDeterrents, setLEDStrobes, setAudioDeterrent, exec, bind, get,
    millis, emit, modify, ret. simpl.
  destruct (currentState (globals m)); simpl; try (split; reflexivity).
  destruct (sub32 _ _ >? 60000); split; reflexivity.
Qed.

Lemma monitorPowerSystems_exec inp m :
  exec monitorPowerSystems inp m
  = mkMachine (globals m) (clock_reads m) (writes m)
      (serial_log m ++
       if batteryIsLow (sensors_batteryVoltage (globals m))
       then ["WARNING: Low battery level"%string] else []).
Proof. reflexivity. Qed.

Lemma loop_tail_power inp m :
  serial_log (exec (telemetryGate ;; performHealthCheck ;; emit (Delay 50)) inp m)
  = serial_log m /\
  sensors_batteryVoltage
    (globals (exec (telemetryGate ;; performHealthCheck ;; emit (Delay 50)) inp m))
  = sensors_batteryVoltage (globals m).
Proof.
  unfold telemetryGate, sendTelemetryData, performHealthCheck, exec, bind, get,
    millis, emit, modify, ret. simpl.
  destruct (sub32 _ (lastTelemetryTime _) >=? 1000); simpl;
    destruct (sub32 _ (lastHealthCheck _) >=? 5000); split; reflexivity.
Qed.

(** What an iteration prints, and the voltage it ends with. *)
Lemma loop_power inp g :
  sensors_batteryVoltage (tick inp g)
  = (if sub32 (wrap32 (clock inp 0)) (lastSensorUpdate g) >=? 100
     then batteryVoltageOf (adc_A0 inp) else sensors_batteryVoltage g) /\
  serial_log (exec loop inp (start g))
  = if batteryIsLow (sensors_batteryVoltage (tick inp g))
    then ["WARNING: Low battery level"%string] else [].
Proof.
  unfold tick, loop. do 5 rewrite exec_seq.
  set (m0 := start g).
  set (m1 := exec checkEmergencyStop inp m0).
  set (m2 := exec sensorGate inp m1).
  set (m3 := exec checkBirdDetection inp m2).
  set (m4 := exec updateSystemState inp m3).
  set (m5 := exec controlDeterrents inp m4).
  rewrite (exec_seq monitorPowerSystems).
  set (m6 := exec monitorPowerSystems inp m5).
  destruct (loop_tail_power inp m6) as [S7 V7].
  destruct (controlDeterrents_power inp m4) as [S5 V5].
  destruct (updateSystemState_power inp m3) as [S4 V4].
  destruct (checkBirdDetection_power inp m2) as [S3 V3].
  destruct (sensorGate_power inp m1) as [S2 V2].
  destruct (checkEmergencyStop_power inp m0) as (S1 & V1 & L1 & K1).
  fold m1 in S1, V1, L1, K1. fold m2 in S2, V2, S3, V3.
  fold m3 in S3, V3, S4, V4. fold m4 in S4, V4, S5, V5. fold m5 in S5, V5.
  assert (V6 : sensors_batteryVoltage (globals m6)
               = sensors_batteryVoltage (globals m5)) by reflexivity.
  assert (S6 : serial_log m6
               = serial_log m5 ++
                 if batteryIsLow (sensors_batteryVoltage (globals m5))
                 then ["WARNING: Low battery level"%string] else [])
    by reflexivity.
  assert (S0 : serial_log m5 = []).
  { rewrite S5, S4, S3, S2, S1. reflexivity. }
  rewrite S7, V7, V6, S6, S0.
  split; [|reflexivity].
  rewrite V5, V4, V3, V2, V1, L1.
  unfold next_millis. rewrite K1. reflexivity.
Qed.

(** X13.  Every iteration writes to the hardware, in this order and nothing
    else: the four strobe channels 0 to 3, the audio enable pin, the tone
    of channel 4, at most one telemetry packet, and the 50 ms delay.  The
    strobes are shaped from the base intensity of the state
    [updateSystemState] chose (emergency if the flag is set, else the state
    of the threat level held); the audio is enabled exactly when that state
    is the active one, and the tone is 0 when it is not.  On the console it
    prints the low-battery warning, once, when the battery level computed
    from the voltage held is below 30, and nothing otherwise; the voltage
    held is the one of this iteration's converter reading when the counter
    first reads 100 ms or more past the last sensor update, and the one
    held before otherwise. *)
Theorem iteration_writes :
  forall inp g,
    let s := if emergencyStop (tick inp g) then STATE_EMERGENCY
             else state_for (currentThreat (tick inp g)) in
    (exists t t' pk,
      writes (exec loop inp (start g))
      = [LedcWrite 0 (phase1 (base_intensity s) t);
         LedcWrite 1 (phase2 (base_intensity s) t);
         LedcWrite 2 (phase3 (base_intensity s) t);
         LedcWrite 3 (phase4 (base_intensity s) t);
         DigitalWrite AUDIO_ENABLE
           (match s with STATE_ACTIVE => true | _ => false end);
         LedcWriteTone 4
           (match s with STATE_ACTIVE => toneFrequency t' | _ => 0 end)]
        ++ pk ++ [Delay 50] /\
      (pk = [] \/ exists p, pk = [LoRaPacket p])) /\
    serial_log (exec loop inp (start g))
    = (if batteryIsLow (sensors_batteryVoltage (tick inp g))
       then ["WARNING: Low battery level"%string] else []) /\
    sensors_batteryVoltage (tick inp g)
    = (if sub32 (wrap32 (clock inp 0)) (lastSensorUpdate g) >=? 100
       then batteryVoltageOf (adc_A0 inp) else sensors_batteryVoltage g).
Proof.
  intros inp g s.
  destruct (loop_power inp g) as [HV HS].
  split; [|split; [exact HS | exact HV]].
  destruct (loop_writes inp g) as (pk & Hw & Hpk).
  rewrite controlDeterrents_writes, decided_writes, decided_state_tick in Hw.
  fold s in Hw.
  exists (next_millis inp (decided inp g)),
         (wrap32 (clock inp (S (clock_reads (decided inp g))))), pk.
  split.
  - rewrite Hw. reflexivity.
  - destruct Hpk as [-> | (now & ->)]; [left; reflexivity | right; eexists; reflexivity].
Qed.

(** The writes of [controlDeterrents] in an iteration, written out. *)
Lemma loop_writes_explicit inp g :
  exists t t' pk,
    writes (exec loop inp (start g))
    = [LedcWrite 0 (phase1 (base_intensity (currentState (globals (decided inp g)))) t);
       LedcWrite 1 (phase2 (base_intensity (currentState (globals (decided inp g)))) t);
       LedcWrite 2 (phase3 (base_intensity (currentState (globals (decided inp g)))) t);
       LedcWrite 3 (phase4 (base_intensity (currentState (globals (decided inp g)))) t);
       DigitalWrite AUDIO_ENABLE
         (match currentState (globals (decided inp g)) with
          | STATE_ACTIVE => true | _ => false end);
       LedcWriteTone 4
         (match currentState (globals (decided inp g)) with
          | STATE_ACTIVE => toneFrequency t' | _ => 0 end)]
      ++ pk ++ [Delay 50] /\
    (pk = [] \/
     exists now,
       pk = [LoRaPacket
               (mkTelemetry (wrap32 (clock inp now))
                  (state_ord (currentState (tick inp g)))
                  (threat_ord (currentThreat (tick inp g)))
                  (if detected (birdData (tick inp g))
                   then Some (confidence (birdData (tick inp g)),
                              distance (birdData (tick inp g)))
                   else None))]).
Proof.
  destruct (loop_writes inp g) as (pk & Hw & Hpk).
  rewrite controlDeterrents_writes, decided_writes in Hw.
  exists (next_millis inp (decided inp g)),
         (wrap32 (clock inp (S (clock_reads (decided inp g))))), pk.
  split; [rewrite Hw; reflexivity | exact Hpk].
Qed.

(** X14.  An iteration that samples the pin low, or starts with the emergency
    flag set, writes 0 to the four strobe channels, drives the audio enable
    pin low and writes a tone of 0; a telemetry packet sent in it reports
    state 3. *)
Theorem emergency_stop_silences :
  forall inp g,
    emergency_pin inp = LOW \/ emergencyStop g = true ->
    exists pk,
      writes (exec loop inp (start g))
      = [LedcWrite 0 0; LedcWrite 1 0; LedcWrite 2 0; LedcWrite 3 0;
         DigitalWrite AUDIO_ENABLE false; LedcWriteTone 4 0]
        ++ pk ++ [Delay 50] /\
      (pk = [] \/ exists p, pk = [LoRaPacket p] /\ tm_state p = 3).
Proof.
  intros inp g H.
  destruct (loop_writes_explicit inp g) as (t & t' & pk & Hw & Hpk).
  assert (Hs : currentState (globals (decided inp g)) = STATE_EMERGENCY).
  { rewrite decided_state, polled_flag.
    destruct H as [-> | H]; [reflexivity|].
    rewrite H. destruct (emergency_pin inp); reflexivity. }
  rewrite Hs in Hw. simpl base_intensity in Hw.
  unfold phase2, phase3, phase4 in Hw.
  rewrite phase1_zero, !strobePhase_zero in Hw.
  exists pk. split; [exact Hw|].
  destruct Hpk as [-> | (now & ->)]; [left; reflexivity|].
  right. eexists. split; [reflexivity|]. simpl.
  destruct (tick_emergency inp g H) as (_ & ->). reflexivity.
Qed.

(** X15.  A telemetry packet sent in an iteration reports the state and the
    threat level the iteration ends with, carries the confidence and the
    distance of the held detection exactly when its [detected] flag is set,
    and is stamped with a clock reading of the iteration. *)
Theorem telemetry_reports_final_state :
  forall inp g p,
    In (LoRaPacket p) (writes (exec loop inp (start g))) ->
    tm_state p = state_ord (currentState (tick inp g)) /\
    tm_threat p = threat_ord (currentThreat (tick inp g)) /\
    tm_bird p = (if detected (birdData (tick inp g))
                 then Some (confidence (birdData (tick inp g)),
                            distance (birdData (tick inp g)))
                 else None) /\
    exists k, tm_timestamp p = wrap32 (clock inp k).
Proof.
  intros inp g p Hin.
  destruct (loop_writes_explicit inp g) as (t & t' & pk & Hw & Hpk).
  rewrite Hw in Hin. simpl in Hin.
  repeat (destruct Hin as [Hin | Hin]; [discriminate Hin|]).
  destruct Hpk as [-> | (now & ->)]; simpl in Hin.
  - destruct Hin as [Hin | []]. discriminate Hin.
  - destruct Hin as [Hin | [Hin | []]]; [|discriminate Hin].
    injection Hin as <-. simpl. repeat split. exists now. reflexivity.
Qed.

(** ** Ranges of the values written *)

Section OutputRanges.

Lemma double_to_int_at_least x (lo : Z) :
  (0 <= x)%R -> (IZR lo <= x)%R -> lo <= double_to_int x.
Proof.
  intros H0 Hlo. pose proof (double_to_int_nonneg x H0) as [_ Hb].
  apply Z.lt_succ_r, lt_IZR. rewrite succ_IZR. lra.
Qed.

(** The sine the library returns is between -1 and 1, and the roundings
    keep the product within -500..500 and the sum within 1500..2500. *)
Lemma toneFrequency_range t : 1500 <= toneFrequency t <= 2500.
Proof.
  unfold toneFrequency.
  pose proof (libm_sin_range (rnd64 (IZR t * rnd64 0.01))) as [Hlo Hhi].
  set (s := libm_sin _) in *.
  pose proof (rnd64_between (-500) 500 (s * 500)%R
                ltac:(simpl; lia) ltac:(simpl; lia) ltac:(lra)) as [P1 P2].
  pose proof (rnd64_between 1500 2500 (2000 + rnd64 (s * 500))%R
                ltac:(simpl; lia) ltac:(simpl; lia) ltac:(lra)) as [Q1 Q2].
  split.
  - apply double_to_int_at_least; lra.
  - apply double_to_int_bounded. lra.
Qed.

Lemma base_intensity_range s : 0 <= base_intensity s <= 255.
Proof. destruct s; simpl; lia. Qed.

(** X16.  Whatever the state and the clock, an iteration writes to the strobe
    channels 0 to 3 only duties between 0 and the base intensity of the
    state it decided on: 0 in standby and emergency, at most 50 in alert,
    at most 255 in the active state. *)
Theorem strobe_duty_within_base :
  forall inp g channel duty,
    In (LedcWrite channel duty) (writes (exec loop inp (start g))) ->
    0 <= channel <= 3 /\
    0 <= duty <= base_intensity
                   (if emergencyStop (tick inp g) then STATE_EMERGENCY
                    else state_for (currentThreat (tick inp g))) /\
    duty <= 255.
Proof.
  intros inp g channel duty Hin.
  destruct (loop_writes_explicit inp g) as (t & t' & pk & Hw & Hpk).
  rewrite decided_state_tick in Hw.
  set (s := if emergencyStop (tick inp g) then STATE_EMERGENCY
            else state_for (currentThreat (tick inp g))) in *.
  pose proof (base_intensity_range s) as [Hb0 Hb1].
  assert (P1 : 0 <= phase1 (base_intensity s) t <= base_intensity s).
  { apply phase1_within. split; assumption. }
  assert (P2 : 0 <= phase2 (base_intensity s) t <= base_intensity s)
    by (apply strobePhase_within; split; assumption).
  assert (P3 : 0 <= phase3 (base_intensity s) t <= base_intensity s)
    by (apply strobePhase_within; split; assumption).
  assert (P4 : 0 <= phase4 (base_intensity s) t <= base_intensity s)
    by (apply strobePhase_within; split; assumption).
  rewrite Hw in Hin. simpl in Hin.
  destruct Hin as [Hin | [Hin | [Hin | [Hin | [Hin | [Hin | Hin]]]]]];
    try discriminate Hin;
    try (injection Hin as <- <-; lia).
  destruct Hpk as [-> | (now & ->)]; simpl in Hin.
  - destruct Hin as [Hin | []]. discriminate Hin.
  - destruct Hin as [Hin | [Hin | []]]; discriminate Hin.
Qed.

(** X17.  The tone an iteration writes goes to channel 4; it lies between 1500
    and 2500 when the iteration decided on the active state and is 0
    otherwise. *)
Theorem tone_range :
  forall inp g channel freq,
    In (LedcWriteTone channel freq) (writes (exec loop inp (start g))) ->
    channel = 4 /\
    match (if emergencyStop (tick inp g) then STATE_EMERGENCY
           else state_for (currentThreat (tick inp g))) with
    | STATE_ACTIVE => 1500 <= freq <= 2500
    | _ => freq = 0
    end.
Proof.
  intros inp g channel freq Hin.
  destruct (loop_writes_explicit inp g) as (t & t' & pk & Hw & Hpk).
  rewrite decided_state_tick in Hw.
  set (s := if emergencyStop (tick inp g) then STATE_EMERGENCY
            else state_for (currentThreat (tick inp g))) in *.
  rewrite Hw in Hin. simpl in Hin.
  destruct Hin as [Hin | [Hin | [Hin | [Hin | [Hin | [Hin | Hin]]]]]];
    try discriminate Hin.
  - injection Hin as <- <-. split; [reflexivity|].
    destruct s; try reflexivity. apply toneFrequency_range.
  - destruct Hpk as [-> | (now & ->)]; simpl in Hin.
    + destruct Hin as [Hin | []]. discriminate Hin.
    + destruct Hin as [Hin | [Hin | []]]; discriminate Hin.
Qed.

End OutputRanges.

(** ** Timer gates *)

Lemma sub32_elapsed last d :
  is_u32 last -> is_u32 d -> sub32 (wrap32 (last + d)) last = d.
Proof.
  unfold is_u32, sub32, wrap32. intros Hl Hd.
  rewrite Zminus_mod_idemp_l.
  replace (last + d - last) with d by lia.
  apply Z.mod_small. exact Hd.
Qed.

(** X18.  The three timer gates measure elapsed time modulo 2^32, so they keep
    working when the millisecond counter overflows.  If the counter reads
    [d] ms past the stored time, wrap-around included, the sensor gate
    refreshes exactly when [d >= 100], the telemetry gate sends exactly
    when [d >= 1000] and the health check restamps exactly when
    [d >= 5000]; a gate that stays shut changes no global. *)
Theorem gates_survive_overflow :
  forall inp m d,
    is_u32 d ->
    (is_u32 (lastSensorUpdate (globals m)) ->
     next_millis inp m = wrap32 (lastSensorUpdate (globals m) + d) ->
     globals (exec sensorGate inp m)
     = if 100 <=? d
       then set_lastSensorUpdate (wrap32 (clock inp (S (S (clock_reads m)))))
              (set_sensors_batteryVoltage (batteryVoltageOf (adc_A0 inp))
                 (set_sensors_timestamp
                    (wrap32 (clock inp (S (clock_reads m)))) (globals m)))
       else globals m) /\
    (is_u32 (lastTelemetryTime (globals m)) ->
     next_millis inp m = wrap32 (lastTelemetryTime (globals m) + d) ->
     globals (exec telemetryGate inp m)
     = (if 1000 <=? d
        then set_lastTelemetryTime (wrap32 (clock inp (S (S (clock_reads m)))))
               (globals m)
        else globals m) /\
     List.length (writes (exec telemetryGate inp m))
     = (List.length (writes m) + if (1000 <=? d)%Z then 1 else 0)%nat) /\
    (is_u32 (lastHealthCheck (globals m)) ->
     next_millis inp m = wrap32 (lastHealthCheck (globals m) + d) ->
     globals (exec performHealthCheck inp m)
     = if 5000 <=? d
       then set_lastHealthCheck (wrap32 (clock inp (S (clock_reads m))))
              (globals m)
       else globals m).
Proof.
  intros inp m d Hd. split; [|split].
  - intros Hl Hnow.
    unfold sensorGate, exec, bind, millis, get. simpl.
    fold (next_millis inp m). rewrite Hnow, (sub32_elapsed _ _ Hl Hd).
    rewrite Z.geb_leb. destruct (100 <=? d); reflexivity.
  - intros Hl Hnow. rewrite telemetryGate_writes.
    unfold telemetryGate, exec, bind, millis, get. simpl.
    fold (next_millis inp m). rewrite Hnow, (sub32_elapsed _ _ Hl Hd).
    rewrite Z.geb_leb. destruct (1000 <=? d); simpl.
    + split; [reflexivity|]. rewrite length_app. reflexivity.
    + split; [reflexivity|]. rewrite app_nil_r. lia.
  - intros Hl Hnow.
    unfold performHealthCheck, exec, bind, millis, get. simpl.
    fold (next_millis inp m). rewrite Hnow, (sub32_elapsed _ _ Hl Hd).
    rewrite Z.geb_leb. destruct (5000 <=? d); reflexivity.
Qed.

(** ** Battery monitoring *)

Section PowerFacts.
Import Power.
Local Open Scope R_scope.






End PowerFacts.

(** ** Battery monitoring, in floating point *)

Section PowerInFloat.
Local Open Scope R_scope.

(** The formulas the loop runs are the ones above when nothing is
    rounded. *)
Lemma power_formulas_exact (adc : Z) (v : R) :
  @batteryVoltageOf exact_arith adc = Power.batteryVoltage adc /\
  @batteryLevelOf exact_arith v = Power.batteryLevel v.
Proof.
  unfold batteryVoltageOf, batteryLevelOf, Power.batteryVoltage,
    Power.batteryLevel, Power.minVoltage, Power.maxVoltage. simpl.
  split; lra.
Qed.

(** Both formulas are monotone whatever the roundings. *)
Lemma batteryVoltageOf_mono (a b : Z) :
  (a <= b)%Z -> batteryVoltageOf a <= batteryVoltageOf b.
Proof.
  intros Hab. unfold batteryVoltageOf.
  assert (Hc : 3 <= rnd64 3.3).
  { rewrite <- (rnd64_int 3) by (simpl; lia). apply rnd64_mono. lra. }
  apply IZR_le in Hab.
  apply rnd32_mono, rnd64_mono.
  assert (H1 : rnd64 (IZR a * rnd64 3.3) <= rnd64 (IZR b * rnd64 3.3))
    by (apply rnd64_mono; nra).
  assert (H2 : rnd64 (rnd64 (IZR a * rnd64 3.3) / 4095)
               <= rnd64 (rnd64 (IZR b * rnd64 3.3) / 4095))
    by (apply rnd64_mono; lra).
  lra.
Qed.

Lemma battery_span_positive : 3 <= rnd32 (rnd32 (rnd64 12.6) - 9).
Proof.
  assert (H1 : 12 <= rnd64 12.6).
  { rewrite <- (rnd64_int 12) by (simpl; lia). apply rnd64_mono. lra. }
  assert (H2 : 12 <= rnd32 (rnd64 12.6)).
  { rewrite <- (rnd32_int 12) by (simpl; lia). apply rnd32_mono, H1. }
  rewrite <- (rnd32_int 3) by (simpl; lia). apply rnd32_mono. lra.
Qed.

Lemma batteryLevelOf_mono (v w : R) :
  v <= w -> batteryLevelOf v <= batteryLevelOf w.
Proof.
  intros Hvw. unfold batteryLevelOf.
  pose proof battery_span_positive as Hd.
  set (d := rnd32 (rnd32 (rnd64 12.6) - 9)) in *.
  assert (Hi : 0 < / d) by (apply Rinv_0_lt_compat; lra).
  assert (H1 : rnd32 (v - 9) <= rnd32 (w - 9)) by (apply rnd32_mono; lra).
  assert (H2 : rnd32 (rnd32 (v - 9) / d) <= rnd32 (rnd32 (w - 9) / d)).
  { apply rnd32_mono. unfold Rdiv. apply Rmult_le_compat_r; lra. }
  apply rnd32_mono. lra.
Qed.

Section AccuratePower.
Hypothesis Hacc : accurate fm.

(** On arguments up to 16384 a [double] operation is within 2 10^-12 of
    the exact one; on arguments up to 32 a [float] one is within
    2 10^-6. *)
Lemma rnd64_near_16384 x :
  - 16384 <= x <= 16384 ->
  x - 2 / 1000000000000 <= rnd64 x <= x + 2 / 1000000000000.
Proof.
  intros Hx. destruct Hacc as (H64 & _ & _).
  pose proof (Rabs_between _ _ (H64 x)) as Hb.
  assert (Rabs x <= 16384) by (apply Rabs_le; lra).
  lra.
Qed.

Lemma rnd32_near_32 x :
  - 32 <= x <= 32 ->
  x - 2 / 1000000 <= rnd32 x <= x + 2 / 1000000.
Proof.
  intros Hx. destruct Hacc as (_ & H32 & _).
  pose proof (Rabs_between _ _ (H32 x)) as Hb.
  assert (Rabs x <= 32) by (apply Rabs_le; lra).
  lra.
Qed.

(** The voltage stored for a reading is within 3 10^-6 of
    reading * 13.2 / 4095. *)
Lemma batteryVoltageOf_near (adc : Z) :
  (0 <= adc <= 4095)%Z ->
  IZR adc * 132 / 40950 - 3 / 1000000
  <= batteryVoltageOf adc
  <= IZR adc * 132 / 40950 + 3 / 1000000.
Proof.
  intros [H0 H1]. apply IZR_le in H0, H1. unfold batteryVoltageOf.
  set (A := IZR adc) in *.
  pose proof (rnd64_near_16384 3.3 ltac:(lra)) as [C1 C2].
  set (c := rnd64 3.3) in *.
  assert (B1 : - 16384 <= A * c <= 16384) by nra.
  assert (E1 : A * 3.3 - / 100000000 <= A * c <= A * 3.3 + / 100000000)
    by nra.
  pose proof (rnd64_near_16384 _ B1) as [R1 R1'].
  set (x1 := rnd64 (A * c)) in *.
  assert (B2 : - 16384 <= x1 / 4095 <= 16384) by lra.
  pose proof (rnd64_near_16384 _ B2) as [R2 R2'].
  set (x2 := rnd64 (x1 / 4095)) in *.
  assert (B3 : - 16384 <= x2 * 4 <= 16384) by lra.
  pose proof (rnd64_near_16384 _ B3) as [R3 R3'].
  set (x3 := rnd64 (x2 * 4)) in *.
  assert (B4 : - 32 <= x3 <= 32) by lra.
  pose proof (rnd32_near_32 _ B4) as [R4 R4'].
  lra.
Qed.

(** The level computed from a voltage [v] between 10 and 10.1 is within
    1/1000 of (v - 9) / 3.6 * 100. *)
Lemma batteryLevelOf_near (v : R) :
  10 <= v <= 10.1 ->
  (v - 9) / 3.6 * 100 - / 1000
  <= batteryLevelOf v
  <= (v - 9) / 3.6 * 100 + / 1000.
Proof.
  intros Hv. unfold batteryLevelOf.
  pose proof (rnd64_near_16384 12.6 ltac:(lra)) as [M1 M1'].
  set (m := rnd64 12.6) in *.
  assert (Bm : - 32 <= m <= 32) by lra.
  pose proof (rnd32_near_32 m Bm) as [M2 M2'].
  set (mx := rnd32 m) in *.
  assert (Bd : - 32 <= mx - 9 <= 32) by lra.
  pose proof (rnd32_near_32 (mx - 9) Bd) as [D1 D1'].
  set (d := rnd32 (mx - 9)) in *.
  assert (Bn : - 32 <= v - 9 <= 32) by lra.
  pose proof (rnd32_near_32 (v - 9) Bn) as [N1 N1'].
  set (n := rnd32 (v - 9)) in *.
  assert (Hd : 0 < d) by lra.
  set (q := n / d).
  assert (Hq : q * d = n) by (unfold q; field; lra).
  assert (Q : (v - 9) / 3.6 - 4 / 1000000 <= q <= (v - 9) / 3.6 + 4 / 1000000).
  { assert (Hq0 : 0 <= q <= 1) by nra.
    assert (Hdiff : - (11 / 1000000) <= q * 3.6 - (v - 9) <= 11 / 1000000)
      by nra.
    lra. }
  assert (Bq : - 32 <= q <= 32) by lra.
  pose proof (rnd32_near_32 q Bq) as [Q1 Q1'].
  set (rq := rnd32 q) in *.
  assert (Bl : - 32 <= rq * 100 <= 32) by lra.
  pose proof (rnd32_near_32 (rq * 100) Bl) as [L1 L1'].
  lra.
Qed.

End AccuratePower.

(** X24.  In accurate floating-point arithmetic, as in exact arithmetic, a
    converter reading between 0 and 4095 makes the battery low exactly when
    it is at most 3127: the level computed for 3127 is below 30, the one
    for 3128 is not, and the level grows with the reading. *)
Theorem low_battery_in_float :
  forall adc : Z,
    accurate fm ->
    (0 <= adc <= 4095)%Z ->
    (batteryIsLow (batteryVoltageOf adc) = true <-> (adc <= 3127)%Z).
Proof.
  intros adc Hacc Hadc.
  assert (Hlow : batteryLevelOf (batteryVoltageOf 3127) < 30).
  { pose proof (batteryVoltageOf_near Hacc 3127 ltac:(lia)) as [V1 V2].
    assert (B : 10 <= batteryVoltageOf 3127 <= 10.1) by lra.
    pose proof (batteryLevelOf_near Hacc _ B) as [L1 L2]. lra. }
  assert (Hhigh : 30 <= batteryLevelOf (batteryVoltageOf 3128)).
  { pose proof (batteryVoltageOf_near Hacc 3128 ltac:(lia)) as [V1 V2].
    assert (B : 10 <= batteryVoltageOf 3128 <= 10.1) by lra.
    pose proof (batteryLevelOf_near Hacc _ B) as [L1 L2]. lra. }
  unfold batteryIsLow.
  destruct (Rlt_dec (batteryLevelOf (batteryVoltageOf adc)) 30) as [Hlt|Hge].
  - split; [intros _|reflexivity].
    destruct (Z_le_gt_dec adc 3127) as [Hle|Hgt]; [exact Hle|exfalso].
    pose proof (batteryLevelOf_mono _ _
                  (batteryVoltageOf_mono 3128 adc ltac:(lia))). lra.
  - split; [discriminate|]. intros Hle. exfalso. apply Hge.
    pose proof (batteryLevelOf_mono _ _
                  (batteryVoltageOf_mono adc 3127 Hle)). lra.
Qed.

End PowerInFloat.

(** ** Start-up *)

Section SetupFacts.
Import Setup.

(** X22.  [setup] runs to its end whatever the three [begin()] calls return: it
    leaves the standby state and the other globals as they were, writes 0
    to the four strobe channels and low to the audio enable pin, and ends
    by printing the ready message and raising the status LED.  A failed
    [begin()] is only reported: its failure message is printed and the
    configuration calls of that device are skipped. *)
Theorem setup_survives_init_failures :
  forall r g,
    fst (setup r g) = set_currentState STATE_STANDBY g /\
    (forall w, In w [LedcWrite 0 0; LedcWrite 1 0; LedcWrite 2 0; LedcWrite 3 0;
                     DigitalWrite AUDIO_ENABLE false] ->
               In (Write w) (snd (setup r g))) /\
    (exists earlier,
       rev (snd (setup r g))
       = Write (DigitalWrite STATUS_LED true)
         :: SerialPrintln "System initialization complete - Ready for operation"
         :: earlier) /\
    (In (SerialPrintln "Failed to initialize MPU6050") (snd (setup r g))
     <-> mpu_ok r = false) /\
    (In (MpuSetAccelerometerRange 8) (snd (setup r g)) <-> mpu_ok r = true) /\
    (In (SerialPrintln "Failed to initialize BMP280") (snd (setup r g))
     <-> bmp_ok r = false) /\
    (In BmpSetSampling (snd (setup r g)) <-> bmp_ok r = true) /\
    (In (SerialPrintln "Failed to initialize LoRa") (snd (setup r g))
     <-> lora_ok r = false) /\
    (In (LoRaSetTxPower 20) (snd (setup r g)) <-> lora_ok r = true).
Proof.
  intros [mpu bmp lora] g.
  split; [reflexivity|].
  split.
  { intros w Hw. simpl in Hw.
    destruct Hw as [<- | [<- | [<- | [<- | [<- | []]]]]];
      destruct mpu, bmp, lora; simpl; tauto. }
  split.
  { destruct mpu, bmp, lora; simpl; eexists; reflexivity. }
  destruct mpu, bmp, lora; simpl;
    repeat split; intros H; try reflexivity; try discriminate H;
    repeat (destruct H as [H | H]; [discriminate H|]); try contradiction;
    tauto.
Qed.

Lemma setup_survives_init_failures_witness :
  In (Write (DigitalWrite AUDIO_ENABLE false))
     (snd (setup (mkInit false false false) initial_globals)) /\
  (In (SerialPrintln "Failed to initialize LoRa")
      (snd (setup (mkInit false false false) initial_globals))
   <-> lora_ok (mkInit false false false) = false).
Proof.
  destruct (setup_survives_init_failures (mkInit false false false)
              initial_globals) as (_ & Hw & _ & _ & _ & _ & _ & Hl & _).
  split; [|exact Hl].
  apply Hw. simpl. do 4 right. left. reflexivity.
Defined.

Lemma gpio_in_setup r g e :
  In e initializeGPIO -> In e (snd (setup r g)).
Proof.
  intros H. unfold setup. cbn [snd].
  apply in_or_app. right. apply in_or_app. left. exact H.
Qed.

Lemma audio_in_setup r g e :
  In e initializeAudio -> In e (snd (setup r g)).
Proof.
  intros H. unfold setup. cbn [snd].
  do 3 (apply in_or_app; right). apply in_or_app. right.
  apply in_or_app. left. exact H.
Qed.

(** X23.  Every output an iteration of the loop drives has been prepared by
    [setup]: a strobe duty goes to a PWM channel that was set up at 1 kHz
    with 8 bits and attached to a pin put in output mode, and fits in those
    8 bits; the tone goes to a channel set up at 44.1 kHz with 8 bits and
    attached to an output pin; a pin written digitally was put in output
    mode. *)
Theorem loop_drives_prepared_outputs :
  forall r g0 inp g w,
    In w (writes (exec loop inp (start g))) ->
    match w with
    | LedcWrite channel duty =>
        In (LedcSetup channel 1000 8) (snd (setup r g0)) /\
        (exists pin, In (LedcAttachPin pin channel) (snd (setup r g0)) /\
                     In (SetPinMode pin OUTPUT) (snd (setup r g0))) /\
        0 <= duty < 2 ^ 8
    | LedcWriteTone channel _ =>
        In (LedcSetup channel 44100 8) (snd (setup r g0)) /\
        (exists pin, In (LedcAttachPin pin channel) (snd (setup r g0)) /\
                     In (SetPinMode pin OUTPUT) (snd (setup r g0)))
    | DigitalWrite pin _ => In (SetPinMode pin OUTPUT) (snd (setup r g0))
    | LoRaPacket _ => True
    | Delay _ => True
    end.
Proof.
  intros r g0 inp g w Hin.
  destruct (loop_writes_explicit inp g) as (t & t' & pk & Hw & Hpk).
  set (s := currentState (globals (decided inp g))) in *.
  pose proof (base_intensity_range s) as [Hb0 Hb1].
  assert (P1 : 0 <= phase1 (base_intensity s) t <= base_intensity s).
  { apply phase1_within. split; assumption. }
  assert (P2 : 0 <= phase2 (base_intensity s) t <= base_intensity s)
    by (apply strobePhase_within; split; assumption).
  assert (P3 : 0 <= phase3 (base_intensity s) t <= base_intensity s)
    by (apply strobePhase_within; split; assumption).
  assert (P4 : 0 <= phase4 (base_intensity s) t <= base_intensity s)
    by (apply strobePhase_within; split; assumption).
  assert (strobe : forall pin channel duty,
            In (SetPinMode pin OUTPUT) initializeGPIO ->
            In (LedcSetup channel 1000 8) initializeGPIO ->
            In (LedcAttachPin pin channel) initializeGPIO ->
            0 <= duty <= base_intensity s ->
            In (LedcSetup channel 1000 8) (snd (setup r g0)) /\
            (exists pin, In (LedcAttachPin pin channel) (snd (setup r g0)) /\
                         In (SetPinMode pin OUTPUT) (snd (setup r g0))) /\
            0 <= duty < 2 ^ 8).
  { intros pin channel duty Hm Hs Ha Hd. split; [|split].
    - apply gpio_in_setup, Hs.
    - exists pin. split; apply gpio_in_setup; assumption.
    - change (2 ^ 8) with 256. lia. }
  rewrite Hw in Hin. simpl in Hin.
  destruct Hin as [<- | [<- | [<- | [<- | [<- | [<- | Hin]]]]]].
  - apply (strobe LED_STROBE_1); simpl; auto 20.
  - apply (strobe LED_STROBE_2); simpl; auto 20.
  - apply (strobe LED_STROBE_3); simpl; auto 20.
  - apply (strobe LED_STROBE_4); simpl; auto 20.
  - apply gpio_in_setup. simpl. auto 20.
  - split; [apply audio_in_setup; simpl; auto|].
    exists AUDIO_PWM. split;
      [apply audio_in_setup | apply gpio_in_setup]; simpl; auto 20.
  - destruct Hpk as [-> | (now & ->)]; simpl in Hin.
    + destruct Hin as [<- | []]. exact I.
    + destruct Hin as [<- | [<- | []]]; exact I.
Qed.

End SetupFacts.

End FirmwareProperties.


(** ** The theorems at work

    The theorems above hold in every float model.  They are applied below
    to concrete iterations in the model without rounding error. *)

Lemma exact_arith_accurate : accurate exact_arith.
Proof.
  unfold accurate. simpl. repeat split; intros x.
  - replace (x - x)%R with 0%R by ring. rewrite Rabs_R0.
    pose proof (Rabs_pos x). lra.
  - replace (x - x)%R with 0%R by ring. rewrite Rabs_R0.
    pose proof (Rabs_pos x). lra.
  - replace (sin x - sin x)%R with 0%R by ring. rewrite Rabs_R0. lra.
  - replace (sin x - sin x)%R with 0%R by ring. rewrite Rabs_R0. lra.
Qed.

#[local] Existing Instance exact_arith.

Lemma emergency_latches_witness :
  emergency_latched (tick (mkInput (fun _ => 0) LOW None 3800) active_since_0) /\
  emergency_latched
    (tick (quiet 50) (tick (mkInput (fun _ => 0) LOW None 3800) active_since_0)) /\
  Forall emergency_latched
    (run [mkInput (fun _ => 0) LOW None 3800; quiet 50; quiet 100] active_since_0).
Proof.
  destruct emergency_latches as (Hset & _ & Hkeep & Hrun).
  split; [|split].
  - apply Hset. reflexivity.
  - apply Hkeep, Hset. reflexivity.
  - apply Hrun. reflexivity.
Defined.

Lemma stale_threat_rearms_witness :
  currentState (tick (quiet 70000) active_since_0) = STATE_ACTIVE /\
  exists k, deterrentActivationTime (tick (quiet 70000) active_since_0)
            = wrap32 (clock (quiet 70000) k).
Proof.
  apply stale_threat_rearms; try reflexivity.
  - right. reflexivity.
  - intros i j _. vm_compute. discriminate.
Defined.


Lemma state_follows_threat_witness :
  currentState (tick (quiet 5000) active_since_0)
  = state_for (currentThreat (tick (quiet 5000) active_since_0)).
Proof.
  apply state_follows_threat; try reflexivity.
  intros i j _. vm_compute. discriminate.
Defined.

Lemma threat_after_iteration_witness :
  currentThreat (tick (quiet 5000) active_since_0) = THREAT_HIGH /\
  exists k,
    birdData (tick (mkInput (fun _ => 7) HIGH
                      (Some (mkRx JsonOk (mkDoc true 10 f200 f50 3))) 3800)
                active_since_0)
    = bird_of_doc (mkDoc true 10 f200 f50 3)
        (wrap32 (clock (mkInput (fun _ => 7) HIGH
                          (Some (mkRx JsonOk (mkDoc true 10 f200 f50 3)))
                          3800) k)).
Proof.
  split.
  - apply (proj1 (threat_after_iteration (quiet 5000) active_since_0)). exact I.
  - destruct (proj2 (threat_after_iteration
                       (mkInput (fun _ => 7) HIGH
                          (Some (mkRx JsonOk (mkDoc true 10 f200 f50 3))) 3800)
                       active_since_0)
                (mkRx JsonOk (mkDoc true 10 f200 f50 3)) eq_refl eq_refl)
      as (k & Hk & _).
    exists k. exact Hk.
Defined.

Lemma threat_always_assessed_witness :
  threat_consistent (tick (quiet 70000) active_since_0).
Proof.
  apply (proj1 (proj2 threat_always_assessed)). reflexivity.
Defined.

Lemma silent_link_witness :
  Forall (fun g' => currentState g' = STATE_ACTIVE)
    (run [quiet 70000; quiet 140000; mkInput (fun _ => 200000) HIGH
            (Some (mkRx IncompleteInput (mkDoc false 0 f50 f50 0))) 3800]
       active_since_0).
Proof.
  apply silent_link_keeps_active.
  - reflexivity.
  - right. reflexivity.
  - repeat constructor; try (simpl; discriminate);
      intros i j _; vm_compute; discriminate.
Defined.

Lemma deterrent_timeout_boundary_witness :
  globals (exec controlDeterrents (quiet 60000) (start active_since_0))
  = active_since_0 /\
  globals (exec controlDeterrents (quiet 60001) (start active_since_0))
  = set_currentState STATE_ALERT active_since_0 /\
  globals (exec controlDeterrents (quiet 60001) (start initial_globals))
  = initial_globals.
Proof.
  split; [|split].
  - apply (proj1 (proj2 (deterrent_timeout_boundary (quiet 60000)
                           (start active_since_0)))).
    + reflexivity.
    + vm_compute. discriminate.
  - apply (proj2 (proj2 (deterrent_timeout_boundary (quiet 60001)
                           (start active_since_0)))).
    + reflexivity.
    + vm_compute. reflexivity.
  - apply (proj1 (deterrent_timeout_boundary (quiet 60001)
                    (start initial_globals))).
    simpl. discriminate.
Defined.

Lemma emergency_stop_silences_witness :
  exists pk,
    writes (exec loop (mkInput (fun _ => 500) LOW None 3800)
              (start active_since_0))
    = [LedcWrite 0 0; LedcWrite 1 0; LedcWrite 2 0; LedcWrite 3 0;
       DigitalWrite AUDIO_ENABLE false; LedcWriteTone 4 0]
      ++ pk ++ [Delay 50] /\
    (pk = [] \/ exists p, pk = [LoRaPacket p] /\ tm_state p = 3).
Proof.
  apply emergency_stop_silences. left. reflexivity.
Defined.

Lemma telemetry_reports_final_state_witness :
  tm_state (mkTelemetry 70000 2 3 (Some (80, float_of_int 40)))
  = state_ord (currentState (tick (quiet 70000) active_since_0)).
Proof.
  apply (telemetry_reports_final_state (quiet 70000) active_since_0).
  vm_compute. do 6 right. left. reflexivity.
Defined.

Lemma strobe_duty_within_base_witness :
  0 <= 0 <= 3 /\
  0 <= phase1 255 70000
  <= base_intensity
       (if emergencyStop (tick (quiet 70000) active_since_0) then STATE_EMERGENCY
        else state_for (currentThreat (tick (quiet 70000) active_since_0))) /\
  phase1 255 70000 <= 255.
Proof.
  apply (strobe_duty_within_base (quiet 70000) active_since_0 0
           (phase1 255 70000)).
  vm_compute. left. reflexivity.
Defined.

Lemma tone_range_witness :
  4 = 4 /\
  match (if emergencyStop (tick (quiet 70000) initial_globals) then STATE_EMERGENCY
         else state_for (currentThreat (tick (quiet 70000) initial_globals))) with
  | STATE_ACTIVE => 1500 <= 0 <= 2500
  | _ => 0 = 0
  end.
Proof.
  apply (tone_range (quiet 70000) initial_globals 4 0).
  vm_compute. do 5 right. left. reflexivity.
Defined.

Lemma gates_survive_overflow_witness :
  globals (exec sensorGate (quiet 60)
             (start (set_lastSensorUpdate (two32 - 50) initial_globals)))
  = set_lastSensorUpdate 60
      (set_sensors_batteryVoltage (batteryVoltageOf 3800)
         (set_sensors_timestamp 60
            (set_lastSensorUpdate (two32 - 50) initial_globals))).
Proof.
  apply (proj1 (gates_survive_overflow (quiet 60)
                  (start (set_lastSensorUpdate (two32 - 50) initial_globals))
                  110 ltac:(vm_compute; split; [discriminate | reflexivity]))).
  - vm_compute. split; [discriminate | reflexivity].
  - reflexivity.
Defined.

Lemma loop_drives_prepared_outputs_witness :
  In (Setup.SetPinMode AUDIO_ENABLE Setup.OUTPUT)
     (snd (Setup.setup (Setup.mkInit false false false) initial_globals)).
Proof.
  apply (loop_drives_prepared_outputs (Setup.mkInit false false false)
           initial_globals (quiet 70000) initial_globals
           (DigitalWrite AUDIO_ENABLE false)).
  vm_compute. do 4 right. left. reflexivity.
Defined.

Lemma low_battery_in_float_witness :
  batteryIsLow (batteryVoltageOf 3127) = true <-> (3127 <= 3127)%Z.
Proof.
  apply (low_battery_in_float 3127 exact_arith_accurate). lia.
Defined.
